(** * Laptop price dashboard: filtering and aggregation pipeline

    A shallow embedding of [app.py]: the loader ([load_data]), the filter
    engine ([filter_data]) and the group-by aggregations behind the charts
    ([create_platform_comparison_chart], [create_platform_market_share],
    [create_specs_price_analysis], [get_cheapest_platforms]).

    Conventions of the embedding.
    - A pandas DataFrame is the list of its rows, in index order.
    - Numeric columns read as floats ([Price], [Rating], ...) are exact
      rationals [Q]: every finite float is a rational, and comparisons,
      minima and maxima agree with those of finite floats.  [series_sum]
      and [series_mean] are the exact sum and mean, which the rounded ones
      of pandas approach; where a statement depends on the value of a mean
      or on the order among equal values, pandas' mean and numpy's sort are
      parameters instead ([get_cheapest_platforms_np]).
    - Integer columns ([RAM_Size], [Storage_Capacity]) are [Z].
    - Text is [string]; the order on text is the lexicographic order on
      character codes, as Python compares [str].
    - Where a function allocates or mutates pandas objects, a second,
      store-passing definition (suffix [_st]) threads the object store. *)

From Stdlib Require Import QArith Qround Qminmax Sorting.Sorted Sorting.Permutation.
From Stdlib Require Import Structures.OrderedTypeEx.
From stdpp Require Import gmap strings list sorting.

Open Scope Q_scope.

(** ** Data model *)

(** The seven columns of the CSV file. *)
Record Laptop := {
  Brand : string;
  Price : Q;
  RAM_Size : Z;
  Storage_Capacity : Z;
  Processor_Speed : Q;
  Screen_Size : Q;
  Weight : Q
}.

(** A row of the augmented table: the columns read from the file, whatever
    they are ([B]), and the three columns [load_data] adds. *)
Record Augmented (B : Type) := {
  base : B;
  Platform : string;
  City : string;
  Rating : Q
}.
Arguments base {B}.
Arguments Platform {B}.
Arguments City {B}.
Arguments Rating {B}.

Abbreviation Listing := (Augmented Laptop).
Abbreviation Table := (list Listing).

(** ** Python helpers *)

(** Truth value of a list: [if xs:] holds exactly for a non-empty list. *)
Definition truthy {A} (xs : list A) : bool :=
  match xs with [] => false | _ :: _ => true end.

(** [Series.isin(values)], row by row. *)
Definition isin `{EqDecision A} (x : A) (values : list A) : bool :=
  bool_decide (x ∈ values).

(** [df[mask]]: boolean indexing keeps the rows whose mask bit is set, in
    order. *)
Definition select {R} (mask : R -> bool) (df : list R) : list R :=
  List.filter mask df.

(** ** Filter engine *)

Definition filter_data (df : Table) (city : string) (brands : list string)
    (price_range : Q * Q) (platforms : list string)
    (ram_sizes storage_sizes : list Z) : Table :=
  let filtered_df := df in
  let filtered_df :=
    if bool_decide (city ≠ "All")
    then select (fun r => bool_decide (City r = city)) filtered_df
    else filtered_df in
  let filtered_df :=
    if truthy brands
    then select (fun r => isin (Brand (base r)) brands) filtered_df
    else filtered_df in
  let filtered_df :=
    select (fun r => Qle_bool (fst price_range) (Price (base r)) &&
                     Qle_bool (Price (base r)) (snd price_range)) filtered_df in
  let filtered_df :=
    if truthy platforms
    then select (fun r => isin (Platform r) platforms) filtered_df
    else filtered_df in
  let filtered_df :=
    if truthy ram_sizes
    then select (fun r => isin (RAM_Size (base r)) ram_sizes) filtered_df
    else filtered_df in
  let filtered_df :=
    if truthy storage_sizes
    then select (fun r => isin (Storage_Capacity (base r)) storage_sizes) filtered_df
    else filtered_df in
  filtered_df.

(** The filter specification as a value, and the filter applied to it. *)
Record FilterSpec := {
  spec_city : string;
  spec_brands : list string;
  spec_price : Q * Q;
  spec_platforms : list string;
  spec_ram : list Z;
  spec_storage : list Z
}.

Definition apply_spec (table : Table) (s : FilterSpec) : Table :=
  filter_data table (spec_city s) (spec_brands s) (spec_price s)
    (spec_platforms s) (spec_ram s) (spec_storage s).

(** The row predicate in the words of the specification: the conjunction of
    the active predicates.  City equality is active unless the city is
    ["All"]; a membership predicate is active when its set is non-empty; the
    price interval is always active and closed on both ends. *)
Definition city_ok (city : string) (r : Listing) : bool :=
  bool_decide (city = "All") || bool_decide (City r = city).
Definition member_ok `{EqDecision A} (xs : list A) (x : A) : bool :=
  bool_decide (xs = []) || bool_decide (x ∈ xs).
Definition price_ok (price_range : Q * Q) (r : Listing) : bool :=
  Qle_bool (fst price_range) (Price (base r)) &&
  Qle_bool (Price (base r)) (snd price_range).

Definition satisfies (city : string) (brands : list string)
    (price_range : Q * Q) (platforms : list string)
    (ram_sizes storage_sizes : list Z) (r : Listing) : bool :=
  city_ok city r && member_ok brands (Brand (base r)) &&
  price_ok price_range r && member_ok platforms (Platform r) &&
  member_ok ram_sizes (RAM_Size (base r)) &&
  member_ok storage_sizes (Storage_Capacity (base r)).

(** ** Aggregation engine *)

(** [Series.sum()] and [Series.mean()]: the mean is the sum over the number
    of values.  (In [Q] a division by zero yields 0; pandas yields NaN.  No
    aggregation below divides by zero, see [groupby_groups_nonempty].) *)
Definition series_sum (xs : list Q) : Q := fold_left Qplus xs 0.
Definition series_mean (xs : list Q) : Q :=
  series_sum xs / inject_Z (Z.of_nat (length xs)).

Definition price (r : Listing) : Q := Price (base r).

Section GroupBy.
Context {R K : Type} (cmp : K -> K -> comparison).

(** The group keys of [df.groupby(col)] (default [sort=True]): the
    distinct values of the column, in ascending order. *)
Fixpoint insert_key (k : K) (ks : list K) : list K :=
  match ks with
  | [] => [k]
  | k' :: ks' =>
      match cmp k k' with
      | Lt => k :: ks
      | Eq => ks
      | Gt => k' :: insert_key k ks'
      end
  end.

Definition group_keys (col : list K) : list K :=
  fold_right insert_key [] col.

(** The rows of one group, in table order. *)
Definition group_rows (key : R -> K) (df : list R) (k : K) : list R :=
  select (fun r => match cmp (key r) k with Eq => true | _ => false end) df.

(** [df.groupby(col)[...].agg(f)]: one entry per group key. *)
Definition groupby {V} (key : R -> K) (agg : list R -> V) (df : list R)
    : list (K * V) :=
  map (fun k => (k, agg (group_rows key df k))) (group_keys (map key df)).
End GroupBy.

(** The strict order on group keys. *)
Definition key_lt {K} (cmp : K -> K -> comparison) (x y : K) : Prop :=
  cmp x y = Lt.

(** [Series.sort_values()]: ascending by value.  pandas calls numpy's sort
    with the default kind, [quicksort], which fixes no order among equal
    values; the insertion sort below is one sort it may be (it leaves equal
    values in the order of the input). *)
Fixpoint insert_by {A} (leb : A -> A -> bool) (x : A) (l : list A) : list A :=
  match l with
  | [] => [x]
  | y :: l' => if leb x y then x :: l else y :: insert_by leb x l'
  end.

Definition stable_sort {A} (leb : A -> A -> bool) (l : list A) : list A :=
  fold_right (insert_by leb) [] l.

Definition sort_values {K} (s : list (K * Q)) : list (K * Q) :=
  stable_sort (fun a b => Qle_bool (snd a) (snd b)) s.

(** [sort_values(ascending=False)] on counts: pandas reverses the values,
    sorts ascending and reverses the result. *)
Definition sort_values_desc {K} (s : list (K * nat)) : list (K * nat) :=
  rev (stable_sort (fun a b => Nat.leb (snd a) (snd b)) (rev s)).

(** [create_platform_comparison_chart]: mean price and row count per
    platform ([platform_stats], before the chart is drawn). *)
Definition platform_stats (df : Table) : list (string * (Q * nat)) :=
  groupby String.compare Platform
    (fun g => (series_mean (map price g), length g)) df.

(** [create_specs_price_analysis]: mean price per memory size and per
    storage size. *)
Definition ram_price (df : Table) : list (Z * Q) :=
  groupby Z.compare (fun r => RAM_Size (base r))
    (fun g => series_mean (map price g)) df.
Definition storage_price (df : Table) : list (Z * Q) :=
  groupby Z.compare (fun r => Storage_Capacity (base r))
    (fun g => series_mean (map price g)) df.

(** [create_platform_market_share]: [df['Platform'].value_counts()], the
    number of rows per platform, most frequent first. *)
Definition unique (col : list string) : list string :=
  fold_left (fun seen x => if decide (x ∈ seen) then seen else seen ++ [x])
    col [].
Definition value_counts (col : list string) : list (string * nat) :=
  sort_values_desc
    (map (fun k => (k, length (List.filter (fun x => bool_decide (x = k)) col)))
       (unique col)).
Definition platform_counts (df : Table) : list (string * nat) :=
  value_counts (map Platform df).

(** [get_cheapest_platforms]: [df.groupby('Platform')['Price'].mean()],
    sorted by value, and its first two entries. *)
Definition platform_mean_price (df : Table) : list (string * Q) :=
  groupby String.compare Platform (fun g => series_mean (map price g)) df.
Definition platform_avg_price (df : Table) : list (string * Q) :=
  sort_values (platform_mean_price df).
Definition get_cheapest_platforms (df : Table) : list (string * Q) :=
  take 2 (platform_avg_price df).

(** [get_cheapest_platforms] with the two library functions it rests on
    taken as given: [np_mean] is the mean pandas computes for the prices of
    one group (a float, rounded), [np_sort] is numpy's sort of a series by
    value.  [get_cheapest_platforms] above is the instance at the exact mean
    and the insertion sort. *)
Section CheapestPlatforms.
Context (np_mean : list Q -> Q).
Context (np_sort : list (string * Q) -> list (string * Q)).

Definition platform_mean_price_np (df : Table) : list (string * Q) :=
  groupby String.compare Platform (fun g => np_mean (map price g)) df.

Definition get_cheapest_platforms_np (df : Table) : list (string * Q) :=
  let platform_avg_price := np_sort (platform_mean_price_np df) in
  take 2 platform_avg_price.
End CheapestPlatforms.

(** What numpy's sort guarantees: the result holds the entries of the
    input, in ascending order of their values. *)
Definition sorts_by_value
    (np_sort : list (string * Q) -> list (string * Q)) : Prop :=
  (forall s, np_sort s ≡ₚ s) /\
  (forall s, StronglySorted (fun a b => snd a <= snd b) (np_sort s)).

(** Two series with the same keys and equal values (as rationals). *)
Definition series_eq {K} (s1 s2 : list (K * Q)) : Prop :=
  Forall2 (fun a b => fst a = fst b /\ snd a == snd b) s1 s2.

(** The order in which the instance [get_cheapest_platforms] (exact mean,
    insertion sort) lists two groups: by mean price, and by platform name
    among groups of equal mean price. *)
Definition cheaper (a b : string * Q) : Prop :=
  snd a < snd b \/ (snd a == snd b /\ String.ltb (fst a) (fst b) = true).

(** ** The object store

    pandas objects live in a store and are passed by reference: [df.copy()],
    [df[mask]], [groupby(...).agg(...)], [sort_values()] and [head()] build a
    new object; assigning to [.columns] changes an object in place. *)
Inductive pyobj :=
| DataFrame (rows : Table)
| StatsFrame (columns : list string) (rows : list (string * (Q * nat)))
| Series (items : list (string * Q)).

Abbreviation ref := nat.
Abbreviation store := (gmap nat pyobj).

(** Computations over the store; [None] is a run-time fault (a reference to
    an object of the wrong kind, a [ValueError]). *)
Definition Py (A : Type) : Type := store -> option (A * store).

#[export] Instance Py_ret : MRet Py := fun A a σ => Some (a, σ).
#[export] Instance Py_bind : MBind Py := fun A B f m σ =>
  match m σ with
  | Some (a, σ') => f a σ'
  | None => None
  end.

Definition alloc (o : pyobj) : Py ref := fun σ =>
  let l := fresh (dom σ) in Some (l, <[l := o]> σ).

Definition read_frame (df : ref) : Py Table := fun σ =>
  match σ !! df with
  | Some (DataFrame rows) => Some (rows, σ)
  | _ => None
  end.

Definition read_series (s : ref) : Py (list (string * Q)) := fun σ =>
  match σ !! s with
  | Some (Series items) => Some (items, σ)
  | _ => None
  end.

(** [stats.columns = names]: renames the columns of [stats] in place; the
    number of names must be the number of columns. *)
Definition set_columns (stats : ref) (names : list string) : Py unit := fun σ =>
  match σ !! stats with
  | Some (StatsFrame columns rows) =>
      if bool_decide (length names = length columns)
      then Some (tt, <[stats := StatsFrame names rows]> σ)
      else None
  | _ => None
  end.

Definition copy_st (df : ref) : Py ref :=
  rows ← read_frame df; alloc (DataFrame rows).

Definition select_st (mask : Listing -> bool) (df : ref) : Py ref :=
  rows ← read_frame df; alloc (DataFrame (select mask rows)).

Definition filter_data_st (df : ref) (city : string) (brands : list string)
    (price_range : Q * Q) (platforms : list string)
    (ram_sizes storage_sizes : list Z) : Py ref :=
  filtered_df ← copy_st df;
  filtered_df ←
    (if bool_decide (city ≠ "All")
     then select_st (fun r => bool_decide (City r = city)) filtered_df
     else mret filtered_df);
  filtered_df ←
    (if truthy brands
     then select_st (fun r => isin (Brand (base r)) brands) filtered_df
     else mret filtered_df);
  filtered_df ←
    select_st (fun r => Qle_bool (fst price_range) (Price (base r)) &&
                        Qle_bool (Price (base r)) (snd price_range)) filtered_df;
  filtered_df ←
    (if truthy platforms
     then select_st (fun r => isin (Platform r) platforms) filtered_df
     else mret filtered_df);
  filtered_df ←
    (if truthy ram_sizes
     then select_st (fun r => isin (RAM_Size (base r)) ram_sizes) filtered_df
     else mret filtered_df);
  filtered_df ←
    (if truthy storage_sizes
     then select_st (fun r => isin (Storage_Capacity (base r)) storage_sizes)
            filtered_df
     else mret filtered_df);
  mret filtered_df.

(** [create_platform_comparison_chart], up to the call of the chart
    library: the statistics frame is built and its columns renamed. *)
Definition platform_stats_st (df : ref) : Py ref :=
  rows ← read_frame df;
  platform_stats ←
    alloc (StatsFrame ["Platform"; "mean"; "count"] (platform_stats rows));
  _ ← set_columns platform_stats ["Platform"; "Average_Price"; "Count"];
  mret platform_stats.

Definition get_cheapest_platforms_st (df : ref) : Py ref :=
  rows ← read_frame df;
  means ← alloc (Series (platform_mean_price rows));
  items ← read_series means;
  platform_avg_price ← alloc (Series (sort_values items));
  items ← read_series platform_avg_price;
  alloc (Series (take 2 items)).

(** ** Dataset loader *)

(** Python exceptions.  [except Exception] catches the subclasses of
    [Exception]; [KeyboardInterrupt] and [SystemExit] derive from
    [BaseException] only. *)
Inductive py_exception :=
| FileNotFoundError (msg : string)
| PermissionError (msg : string)
| EmptyDataError (msg : string)
| ParserError (msg : string)
| UnicodeDecodeError (msg : string)
| OtherException (msg : string)
| KeyboardInterrupt
| SystemExit.

Definition is_Exception (e : py_exception) : bool :=
  match e with
  | KeyboardInterrupt | SystemExit => false
  | _ => true
  end.

Definition str (e : py_exception) : string :=
  match e with
  | FileNotFoundError msg | PermissionError msg | EmptyDataError msg
  | ParserError msg | UnicodeDecodeError msg | OtherException msg => msg
  | KeyboardInterrupt | SystemExit => ""
  end.

(** What a call does: it returns a value or raises. *)
Inductive outcome (A : Type) :=
| Returns (a : A)
| Raises (e : py_exception).
Arguments Returns {A}.
Arguments Raises {A}.

(** numpy's rounding of a float to the nearest integer, ties to even, and
    [round(1)]: one decimal.  Both are computed on the exact value; numpy
    rounds the float product first, so on rare draws its tenth can differ by
    one. *)
Definition rint (x : Q) : Z :=
  let f := Qfloor x in
  match Qcompare (x - inject_Z f) (1 # 2) with
  | Lt => f
  | Gt => (f + 1)%Z
  | Eq => if Z.even f then f else (f + 1)%Z
  end.
Definition round1 (x : Q) : Q := inject_Z (rint (x * 10)) / 10.

Section Loader.
(** The rows of the file, whatever its columns. *)
Context {B : Type}.

(** numpy's global generator: its state, [np.random.seed], one bounded
    draw of [randint] and one draw of [random_sample] in [0, 1). *)
Context {rng : Type}.
Context (seed : Z -> rng).
Context (randint : nat -> rng -> nat * rng).
Context (random_sample : rng -> Q * rng).

(** What [load_data] can change outside its result: the state of the
    global generator and the messages shown by [st.error]. *)
Record world := {
  np_random : rng;
  st_errors : list string
}.

(** [np.random.choice(a, size=size)]: [size] independent draws of an
    index below [len(a)]. *)
Fixpoint choice (a : list string) (size : nat) (g : rng)
    : list string * rng :=
  match size with
  | O => ([], g)
  | S size' =>
      let (i, g) := randint (length a) g in
      let (xs, g) := choice a size' g in
      (nth i a "" :: xs, g)
  end.

(** [np.random.uniform(low, high, size=size)]. *)
Fixpoint uniform (low high : Q) (size : nat) (g : rng) : list Q * rng :=
  match size with
  | O => ([], g)
  | S size' =>
      let (u, g) := random_sample g in
      let (xs, g) := uniform low high size' g in
      (low + (high - low) * u :: xs, g)
  end.

(** [df[col] = values] for the three derived columns; the columns have
    the length of the table. *)
Fixpoint assign_columns (df : list B) (platform city : list string)
    (rating : list Q) : list (Augmented B) :=
  match df, platform, city, rating with
  | b :: df', p :: platform', c :: city', x :: rating' =>
      {| base := b; Platform := p; City := c; Rating := x |}
        :: assign_columns df' platform' city' rating'
  | _, _, _, _ => []
  end.

(** [load_data].  [read_csv] is what reading the file does: it returns
    the rows or raises. *)
Definition load_data (read_csv : outcome (list B)) (w : world)
    : outcome (option (list (Augmented B))) * world :=
  match read_csv with
  | Returns df =>
      let platforms :=
        ["Amazon"; "Flipkart"; "Reliance Digital"; "Croma"; "Vijay Sales"] in
      let g := seed 42 in
      let (platform_col, g) := choice platforms (length df) g in
      let cities :=
        ["Bhopal"; "Mumbai"; "Delhi"; "Bangalore"; "Chennai"; "Kolkata";
         "Pune"; "Hyderabad"] in
      let (city_col, g) := choice cities (length df) g in
      let (u, g) := uniform 3 5 (length df) g in
      let rating_col := map round1 u in
      (Returns (Some (assign_columns df platform_col city_col rating_col)),
       {| np_random := g; st_errors := st_errors w |})
  | Raises e =>
      if is_Exception e
      then (Returns None,
            {| np_random := np_random w;
               st_errors := st_errors w ++ ["Error loading data: " +:+ str e] |})
      else (Raises e, w)
  end.
End Loader.
Arguments world : clear implicits.

(** The mean price of one platform, read off the table. *)
Definition platform_mean (df : Table) (k : string) : Q :=
  series_mean (map price (select (fun r => bool_decide (Platform r = k)) df)).

(** A run that ends with a new object [o] and leaves every object of the
    store [σ0] as it was. *)
Definition builds (σ0 : store) (o : pyobj) (run : option (ref * store)) : Prop :=
  exists r σ', run = Some (r, σ') /\ σ0 ⊆ σ' /\ σ0 !! r = None /\
               σ' !! r = Some o.

(** ** Narrowing a filter specification *)

(** A selection is narrowed by removing elements from it, as long as some
    element is left (an empty selection is no constraint at all). *)
Definition set_narrowed {A} (xs' xs : list A) : Prop :=
  (xs' = [] -> xs = []) /\ xs' ⊆ xs.

Definition interval_narrowed (p' p : Q * Q) : Prop :=
  fst p <= fst p' /\ snd p' <= snd p.

Definition city_narrowed (city' city : string) : Prop :=
  city' = city \/ city = "All".

Definition narrower (s' s : FilterSpec) : Prop :=
  city_narrowed (spec_city s') (spec_city s) /\
  set_narrowed (spec_brands s') (spec_brands s) /\
  interval_narrowed (spec_price s') (spec_price s) /\
  set_narrowed (spec_platforms s') (spec_platforms s) /\
  set_narrowed (spec_ram s') (spec_ram s) /\
  set_narrowed (spec_storage s') (spec_storage s).

(** The predicates of a specification other than the price interval. *)
Definition other_predicates_ok (city : string) (brands platforms : list string)
    (ram_sizes storage_sizes : list Z) (r : Listing) : bool :=
  city_ok city r && member_ok brands (Brand (base r)) &&
  member_ok platforms (Platform r) &&
  member_ok ram_sizes (RAM_Size (base r)) &&
  member_ok storage_sizes (Storage_Capacity (base r)).

(** ** A sample generator

    A counter stands in for numpy's generator in the examples: the state is
    the number of draws so far. *)
Definition counter_seed (s : Z) : nat := Z.to_nat s.
Definition counter_randint (bound : nat) (g : nat) : nat * nat :=
  (g mod bound, S g)%nat.
Definition counter_random_sample (g : nat) : Q * nat :=
  (inject_Z (Z.of_nat (g mod 10)) / 10, S g).

(** ** Sample tables *)

Definition listing (brand : string) (p : Q) (platform city : string) : Listing :=
  {| base := {| Brand := brand; Price := p; RAM_Size := 8;
                Storage_Capacity := 512; Processor_Speed := 2;
                Screen_Size := 15; Weight := 2 |};
     Platform := platform; City := city; Rating := 4 |}.

(** Five rows, two brands, prices 10000, 20000, 15000, 30000, 25000. *)
Definition scenario_table : Table :=
  [listing "X" 10000 "Amazon" "Bhopal"; listing "Y" 20000 "Croma" "Bhopal";
   listing "X" 15000 "Amazon" "Pune"; listing "Y" 30000 "Flipkart" "Pune";
   listing "X" 25000 "Croma" "Delhi"].

(** Two platforms with the same mean price; Flipkart comes first. *)
Definition tie_table : Table :=
  [listing "X" 100 "Flipkart" "Bhopal"; listing "X" 100 "Amazon" "Bhopal"].

(** Platforms A, B, C with mean prices 1000, 800, 1200. *)
Definition abc_table : Table :=
  [listing "X" 1200 "C" "Bhopal"; listing "X" 900 "A" "Bhopal";
   listing "Y" 800 "B" "Pune"; listing "Y" 1100 "A" "Pune"].

(** ** Sidebar widgets *)

(** [Series.min()] and [Series.max()]; [None] stands for the NaN that
    pandas returns on an empty column. *)
Definition series_min (xs : list Q) : option Q :=
  match xs with
  | [] => None
  | x :: xs' => Some (fold_left Qmin xs' x)
  end.
Definition series_max (xs : list Q) : option Q :=
  match xs with
  | [] => None
  | x :: xs' => Some (fold_left Qmax xs' x)
  end.

(** [int(x)] on a float: truncation towards zero. *)
Definition py_int (x : Q) : Z := Z.quot (Qnum x) (Z.pos (Qden x)).

(** [Series.unique()]: the distinct values in order of first appearance. *)
Definition uniq `{EqDecision A} (col : list A) : list A :=
  fold_left (fun seen x => if decide (x ∈ seen) then seen else seen ++ [x])
    col [].

(** [list.index(x)]. *)
Fixpoint list_index (x : string) (l : list string) : option nat :=
  match l with
  | [] => None
  | y :: l' => if bool_decide (y = x) then Some 0%nat
               else S <$> list_index x l'
  end.

(** What [create_sidebar_filters] hands to the widgets: the options of each
    widget and the value it holds before the user touches it.  The three
    last multiselects start with all their options selected. *)
Record sidebar := {
  city_options : list string;
  city_index : nat;
  brand_options : list string;
  brand_default : list string;
  slider_min : Z;
  slider_max : Z;
  platform_options : list string;
  ram_options : list Z;
  storage_options : list Z
}.

(** The widgets of [create_sidebar_filters].  On a table without rows the
    minimum price is NaN and [int] raises a [ValueError]; when the lowest
    and the highest price truncate to the same integer, [st.sidebar.slider]
    raises (its [min_value] must be less than its [max_value]). *)
Definition sidebar_widgets (df : Table) : outcome sidebar :=
  let cities := "All" :: stable_sort String.leb (uniq (map City df)) in
  let index := match list_index "Bhopal" cities with
               | Some i => i
               | None => 0%nat
               end in
  let brands := uniq (map (fun r => Brand (base r)) df) in
  match series_min (map price df), series_max (map price df) with
  | Some lo, Some hi =>
      if bool_decide (py_int lo = py_int hi)
      then Raises (OtherException
                     "Slider `min_value` must be less than the `max_value`.")
      else Returns {|
        city_options := cities;
        city_index := index;
        brand_options := brands;
        brand_default := take 3 brands;
        slider_min := py_int lo;
        slider_max := py_int hi;
        platform_options := uniq (map Platform df);
        ram_options :=
          stable_sort Z.leb (uniq (map (fun r => RAM_Size (base r)) df));
        storage_options :=
          stable_sort Z.leb (uniq (map (fun r => Storage_Capacity (base r)) df))
      |}
  | _, _ => Raises (OtherException "cannot convert float NaN to integer")
  end.

(** The selection every widget returns on the first run of the script. *)
Definition first_run (sb : sidebar) : FilterSpec := {|
  spec_city := nth (city_index sb) (city_options sb) "All";
  spec_brands := brand_default sb;
  spec_price := (inject_Z (slider_min sb), inject_Z (slider_max sb));
  spec_platforms := platform_options sb;
  spec_ram := ram_options sb;
  spec_storage := storage_options sb
|}.

(** [create_sidebar_filters] on the first run. *)
Definition create_sidebar_filters (df : Table) : outcome FilterSpec :=
  match sidebar_widgets df with
  | Returns sb => Returns (first_run sb)
  | Raises e => Raises e
  end.

(** ** The page *)

(** The column the table is sorted by. *)
Inductive sort_column := SortPrice | SortRating | SortRAM | SortStorage.

Definition sort_key (c : sort_column) (r : Listing) : Q :=
  match c with
  | SortPrice => Price (base r)
  | SortRating => Rating r
  | SortRAM => inject_Z (RAM_Size (base r))
  | SortStorage => inject_Z (Storage_Capacity (base r))
  end.

(** What [main] shows when there are rows to show: the metrics, the two
    best deals, the frames behind the charts that aggregate (the box plot
    and the scatter plots draw the filtered rows as they are) and the
    table. *)
Record dashboard := {
  total_laptops : nat;
  average_price : Q;
  lowest_price : option Q;
  highest_price : option Q;
  brands_available : nat;
  best_deals : option ((string * Q) * (string * Q));
  platform_chart : list (string * (Q * nat));
  market_share : list (string * nat);
  ram_chart : list (Z * Q);
  storage_chart : list (Z * Q);
  detailed_data : Table
}.

Inductive page :=
| LoadFailed
| NoData
| Dashboard (d : dashboard).

(** [df.empty]. *)
Definition df_empty {R} (df : list R) : bool :=
  match df with [] => true | _ :: _ => false end.

Section Main.
(** numpy's sort of the rows of a frame by a key column, ascending; pandas
    calls it with the default kind, [quicksort]. *)
Context (np_sort : (Listing -> Q) -> Table -> Table).

(** [df.sort_values(column, ascending=...)]: for a descending sort pandas
    reverses the rows, sorts ascending and reverses the result. *)
Definition df_sort_values (column : sort_column) (ascending : bool)
    (df : Table) : Table :=
  if ascending then np_sort (sort_key column) df
  else rev (np_sort (sort_key column) (rev df)).

(** [main]: [loaded] is what [load_data] returned, [choose] the values the
    user has set the sidebar widgets to, [sort_by] and [ascending] the two
    select boxes above the table. *)
Definition main (loaded : option Table) (choose : sidebar -> FilterSpec)
    (sort_by : sort_column) (ascending : bool) : outcome page :=
  match loaded with
  | None => Returns LoadFailed
  | Some df =>
      match sidebar_widgets df with
      | Raises e => Raises e
      | Returns sb =>
          let filtered_df := apply_spec df (choose sb) in
          if df_empty filtered_df
          then Returns NoData
          else
            let cheapest_platforms := get_cheapest_platforms filtered_df in
            let display_df := df_sort_values sort_by ascending filtered_df in
            Returns (Dashboard {|
              total_laptops := length filtered_df;
              average_price := series_mean (map price filtered_df);
              lowest_price := series_min (map price filtered_df);
              highest_price := series_max (map price filtered_df);
              brands_available :=
                length (uniq (map (fun r => Brand (base r)) filtered_df));
              best_deals :=
                match cheapest_platforms with
                | first :: second :: _ => Some (first, second)
                | _ => None
                end;
              platform_chart := platform_stats filtered_df;
              market_share := platform_counts filtered_df;
              ram_chart := ram_price filtered_df;
              storage_chart := storage_price filtered_df;
              detailed_data := take 20 display_df
            |})
      end
  end.
End Main.

(** Two rows, the dearer priced 2000.5. *)
Definition fractional_table : Table :=
  [listing "X" 1000 "Amazon" "Bhopal"; listing "Y" (4001 # 2) "Croma" "Bhopal"].

(** An insertion sort standing in for numpy's sort in the examples. *)
Definition insertion_np_sort (key : Listing -> Q) (df : Table) : Table :=
  stable_sort (fun a b => Qle_bool (key a) (key b)) df.

(** * Properties *)

(** ** Boolean indexing *)

Lemma select_select {R} (f g : R -> bool) (l : list R) :
  select g (select f l) = select (fun r => f r && g r) l.
Proof.
  unfold select. induction l as [|x l IH]; simpl; [done|].
  destruct (f x) eqn:Hf; simpl; [|done].
  destruct (g x); simpl; by rewrite IH.
Qed.

Lemma select_ext {R} (f g : R -> bool) (l : list R) :
  (forall r, f r = g r) -> select f l = select g l.
Proof. intros H. unfold select. by apply List.filter_ext. Qed.

Lemma select_guarded {R} (guard : bool) (mask ok : R -> bool) (l : list R) :
  (forall r, ok r = if guard then mask r else true) ->
  (if guard then select mask l else l) = select ok l.
Proof.
  intros Hok. destruct guard.
  - apply select_ext. intros r. by rewrite Hok.
  - unfold select. induction l as [|x l IH]; simpl; [done|].
    rewrite Hok. by rewrite <- IH.
Qed.

Lemma elem_of_select {R} (f : R -> bool) (l : list R) (r : R) :
  r ∈ select f l <-> r ∈ l /\ f r = true.
Proof. unfold select. rewrite !list_elem_of_In. apply List.filter_In. Qed.

Lemma select_sublist {R} (f : R -> bool) (l : list R) : sublist (select f l) l.
Proof.
  unfold select. induction l as [|x l IH]; simpl; [constructor|].
  destruct (f x); by constructor.
Qed.

Lemma select_idemp {R} (f : R -> bool) (l : list R) :
  select f (select f l) = select f l.
Proof.
  rewrite select_select. apply select_ext. intros r. by destruct (f r).
Qed.

Lemma select_length_mono {R} (f g : R -> bool) (l : list R) :
  (forall r, f r = true -> g r = true) ->
  (length (select f l) <= length (select g l))%nat.
Proof.
  intros H. unfold select. induction l as [|x l IH]; simpl; [done|].
  destruct (f x) eqn:Hf.
  - rewrite (H x Hf). simpl. lia.
  - destruct (g x); simpl; lia.
Qed.

Lemma select_true {R} (f : R -> bool) (l : list R) :
  (forall r, r ∈ l -> f r = true) -> select f l = l.
Proof.
  unfold select. induction l as [|x l IH]; simpl; intros H; [done|].
  rewrite (H x) by constructor. f_equal. apply IH. intros r Hr.
  apply H. by constructor.
Qed.

(** ** The filter as one selection *)

Lemma truthy_member_ok `{EqDecision A} (xs : list A) (x : A) :
  member_ok xs x = if truthy xs then isin x xs else true.
Proof. unfold member_ok, isin. by destruct xs. Qed.

Lemma city_guard_ok (city : string) (r : Listing) :
  city_ok city r
  = if bool_decide (city ≠ "All") then bool_decide (City r = city) else true.
Proof.
  unfold city_ok. destruct (decide (city = "All")) as [->|Hne].
  - done.
  - rewrite (bool_decide_eq_false_2 (city = "All")) by done.
    by rewrite (bool_decide_eq_true_2 (city ≠ "All")).
Qed.

Lemma filter_data_select df city brands price_range platforms ram_sizes
    storage_sizes :
  filter_data df city brands price_range platforms ram_sizes storage_sizes
  = select (satisfies city brands price_range platforms ram_sizes storage_sizes)
      df.
Proof.
  unfold filter_data. cbv zeta.
  rewrite (select_guarded (bool_decide (city ≠ "All")) _ (city_ok city))
    by apply city_guard_ok.
  rewrite (select_guarded (truthy brands) _
             (fun r => member_ok brands (Brand (base r))))
    by (intros r; apply truthy_member_ok).
  rewrite (select_guarded (truthy platforms) _
             (fun r => member_ok platforms (Platform r)))
    by (intros r; apply truthy_member_ok).
  rewrite (select_guarded (truthy ram_sizes) _
             (fun r => member_ok ram_sizes (RAM_Size (base r))))
    by (intros r; apply truthy_member_ok).
  rewrite (select_guarded (truthy storage_sizes) _
             (fun r => member_ok storage_sizes (Storage_Capacity (base r))))
    by (intros r; apply truthy_member_ok).
  rewrite !select_select.
  apply select_ext. intros r. unfold satisfies, price_ok.
  by rewrite !andb_assoc.
Qed.

Lemma member_ok_true `{EqDecision A} (xs : list A) (x : A) :
  member_ok xs x = true <-> xs = [] \/ x ∈ xs.
Proof.
  unfold member_ok. rewrite orb_true_iff, !bool_decide_eq_true. done.
Qed.

Lemma city_ok_true (city : string) (r : Listing) :
  city_ok city r = true <-> city = "All" \/ City r = city.
Proof.
  unfold city_ok. rewrite orb_true_iff, !bool_decide_eq_true. done.
Qed.

Lemma price_ok_true (price_range : Q * Q) (r : Listing) :
  price_ok price_range r = true
  <-> fst price_range <= Price (base r) /\ Price (base r) <= snd price_range.
Proof.
  unfold price_ok. rewrite andb_true_iff, !Qle_bool_iff. done.
Qed.

Lemma satisfies_true city brands price_range platforms ram_sizes storage_sizes r :
  satisfies city brands price_range platforms ram_sizes storage_sizes r = true
  <-> (city = "All" \/ City r = city) /\
      (brands = [] \/ Brand (base r) ∈ brands) /\
      (fst price_range <= Price (base r) /\ Price (base r) <= snd price_range) /\
      (platforms = [] \/ Platform r ∈ platforms) /\
      (ram_sizes = [] \/ RAM_Size (base r) ∈ ram_sizes) /\
      (storage_sizes = [] \/ Storage_Capacity (base r) ∈ storage_sizes).
Proof.
  unfold satisfies.
  rewrite !andb_true_iff, city_ok_true, price_ok_true, !member_ok_true.
  tauto.
Qed.

Lemma other_predicates_select df city brands price_range platforms ram_sizes
    storage_sizes :
  (forall r, r ∈ df ->
     other_predicates_ok city brands platforms ram_sizes storage_sizes r = true) ->
  filter_data df city brands price_range platforms ram_sizes storage_sizes
  = select (price_ok price_range) df.
Proof.
  intros Hall. rewrite filter_data_select. unfold select.
  induction df as [|x df IH]; simpl; [done|].
  assert (Hx : satisfies city brands price_range platforms ram_sizes
                 storage_sizes x = price_ok price_range x).
  { specialize (Hall x ltac:(constructor)). unfold other_predicates_ok in Hall.
    unfold satisfies. rewrite !andb_true_iff in Hall.
    destruct Hall as [[[[-> ->] ->] ->] ->]. simpl. by rewrite !andb_true_r. }
  rewrite Hx, IH; [done|]. intros r Hr. apply Hall. by constructor.
Qed.

Lemma narrower_satisfies s' s r :
  narrower s' s ->
  satisfies (spec_city s') (spec_brands s') (spec_price s') (spec_platforms s')
    (spec_ram s') (spec_storage s') r = true ->
  satisfies (spec_city s) (spec_brands s) (spec_price s) (spec_platforms s)
    (spec_ram s) (spec_storage s) r = true.
Proof.
  intros (Hc & Hb & [Hlo Hhi] & Hp & Hr & Hs). rewrite !satisfies_true.
  assert (Hset : forall A (xs' xs : list A) (x : A),
             set_narrowed xs' xs -> xs' = [] \/ x ∈ xs' -> xs = [] \/ x ∈ xs).
  { intros A xs' xs x [Hnil Hsub] [-> | Hin]; [left; by apply Hnil | right; by apply Hsub]. }
  intros (Hc' & Hb' & [Hlo' Hhi'] & Hp' & Hr' & Hs').
  repeat split; eauto using Qle_trans.
  destruct Hc as [<- | ->]; [done | by left].
Qed.

Lemma remove_set_narrowed `{EqDecision A} (x : A) (xs : list A) :
  List.remove (decide_rel (=)) x xs <> [] ->
  set_narrowed (List.remove (decide_rel (=)) x xs) xs.
Proof.
  intros Hne. split; [done|]. intros y Hy.
  apply list_elem_of_In in Hy. apply List.in_remove in Hy as [Hy _].
  by apply list_elem_of_In.
Qed.

(** ** The filter engine: claims *)

(** C1.  [filter_data] returns exactly the rows of the input table that
    satisfy the conjunction of the active predicates, in their original
    order: city equality unless the city is ["All"], membership in each
    non-empty selection (brands, platforms, memory sizes, storage sizes), and
    the closed price interval. *)
Theorem filter_data_exact df city brands price_range platforms ram_sizes
    storage_sizes :
  let out :=
    filter_data df city brands price_range platforms ram_sizes storage_sizes in
  out = List.filter
          (satisfies city brands price_range platforms ram_sizes storage_sizes)
          df /\
  (forall r, r ∈ out <->
     r ∈ df /\
     (city = "All" \/ City r = city) /\
     (brands = [] \/ Brand (base r) ∈ brands) /\
     (fst price_range <= Price (base r) /\ Price (base r) <= snd price_range) /\
     (platforms = [] \/ Platform r ∈ platforms) /\
     (ram_sizes = [] \/ RAM_Size (base r) ∈ ram_sizes) /\
     (storage_sizes = [] \/ Storage_Capacity (base r) ∈ storage_sizes)) /\
  sublist out df.
Proof.
  cbv zeta. rewrite filter_data_select. split; [done|]. split.
  - intros r. by rewrite elem_of_select, satisfies_true.
  - apply select_sublist.
Qed.

(** C2.  An empty selection of brands (likewise of platforms, memory sizes
    or storage sizes) imposes no constraint: the filter returns the rows
    that satisfy the remaining predicates, as if that predicate were absent;
    with every selection empty and the city ["All"], a table whose prices
    lie in the interval is returned whole. *)
Theorem empty_selection_is_no_constraint :
  (forall df city price_range platforms ram_sizes storage_sizes,
     filter_data df city [] price_range platforms ram_sizes storage_sizes
     = List.filter (fun r =>
         city_ok city r && price_ok price_range r &&
         member_ok platforms (Platform r) &&
         member_ok ram_sizes (RAM_Size (base r)) &&
         member_ok storage_sizes (Storage_Capacity (base r))) df) /\
  (forall df city brands price_range ram_sizes storage_sizes,
     filter_data df city brands price_range [] ram_sizes storage_sizes
     = List.filter (fun r =>
         city_ok city r && member_ok brands (Brand (base r)) &&
         price_ok price_range r &&
         member_ok ram_sizes (RAM_Size (base r)) &&
         member_ok storage_sizes (Storage_Capacity (base r))) df) /\
  (forall df city brands price_range platforms storage_sizes,
     filter_data df city brands price_range platforms [] storage_sizes
     = List.filter (fun r =>
         city_ok city r && member_ok brands (Brand (base r)) &&
         price_ok price_range r && member_ok platforms (Platform r) &&
         member_ok storage_sizes (Storage_Capacity (base r))) df) /\
  (forall df city brands price_range platforms ram_sizes,
     filter_data df city brands price_range platforms ram_sizes []
     = List.filter (fun r =>
         city_ok city r && member_ok brands (Brand (base r)) &&
         price_ok price_range r && member_ok platforms (Platform r) &&
         member_ok ram_sizes (RAM_Size (base r))) df) /\
  (forall df price_range,
     (forall r, r ∈ df -> price_ok price_range r = true) ->
     filter_data df "All" [] price_range [] [] [] = df).
Proof.
  repeat split; intros; rewrite filter_data_select.
  1-4: apply select_ext; intros r; unfold satisfies, member_ok; simpl;
       by rewrite ?andb_true_r.
  apply select_true. intros r Hr. unfold satisfies. simpl.
  rewrite !andb_true_r. auto.
Qed.

Lemma empty_selection_is_no_constraint_witness :
  filter_data scenario_table "All" [] (10000, 30000) [] [] [] = scenario_table.
Proof.
  destruct empty_selection_is_no_constraint as (_ & _ & _ & _ & H).
  apply H. intros r Hr. repeat (apply elem_of_cons in Hr as [-> | Hr]);
    [reflexivity .. | by apply elem_of_nil in Hr].
Defined.

(** C4.  The price interval is closed on both ends: a row of the table
    priced exactly [low] or exactly [high] (and passing the other predicates
    of the specification) is in the result.  On five rows priced 10000,
    20000, 15000, 30000, 25000, the interval [15000, 25000] leaves the three
    rows priced 20000, 15000, 25000 (in table order), of mean price 20000. *)
Theorem price_interval_inclusive :
  (forall df city brands low high platforms ram_sizes storage_sizes r,
     r ∈ df -> low <= high ->
     Price (base r) == low \/ Price (base r) == high ->
     other_predicates_ok city brands platforms ram_sizes storage_sizes r = true ->
     r ∈ filter_data df city brands (low, high) platforms ram_sizes
           storage_sizes) /\
  (forall df city brands platforms ram_sizes storage_sizes,
     map price df = [10000; 20000; 15000; 30000; 25000] ->
     (forall r, r ∈ df ->
        other_predicates_ok city brands platforms ram_sizes storage_sizes r
        = true) ->
     let out := filter_data df city brands (15000, 25000) platforms ram_sizes
                  storage_sizes in
     map price out = [20000; 15000; 25000] /\
     length out = 3%nat /\
     series_mean (map price out) == 20000).
Proof.
  split.
  - intros df city brands low high platforms ram_sizes storage_sizes r
      Hin Hle Hprice Hother.
    rewrite filter_data_select, elem_of_select. split; [done|].
    unfold other_predicates_ok in Hother. rewrite !andb_true_iff in Hother.
    destruct Hother as [[[[Hc Hb] Hp] Hr] Hs].
    unfold satisfies. rewrite Hc, Hb, Hp, Hr, Hs. simpl.
    rewrite !andb_true_r. apply price_ok_true. simpl.
    destruct Hprice as [-> | ->]; split; try done; try apply Qle_refl.
  - intros df city brands platforms ram_sizes storage_sizes Hprices Hother.
    cbv zeta. rewrite other_predicates_select by done.
    destruct df as [|r1 [|r2 [|r3 [|r4 [|r5 [|? ?]]]]]]; try discriminate.
    injection Hprices as H1 H2 H3 H4 H5. unfold price in *.
    unfold select, price_ok. simpl. rewrite H1, H2, H3, H4, H5. simpl.
    unfold price. rewrite H2, H3, H5. done.
Qed.

Lemma price_interval_inclusive_witness :
  listing "X" 15000 "Amazon" "Pune"
    ∈ filter_data scenario_table "All" [] (15000, 25000) [] [] [] /\
  listing "X" 25000 "Croma" "Delhi"
    ∈ filter_data scenario_table "All" [] (15000, 25000) [] [] [] /\
  map price (filter_data scenario_table "All" [] (15000, 25000) [] [] [])
  = [20000; 15000; 25000].
Proof.
  destruct price_interval_inclusive as [Hincl Hscenario].
  split; [|split].
  - apply Hincl; [do 3 constructor | by vm_compute | left; reflexivity | reflexivity].
  - apply Hincl; [do 5 constructor | by vm_compute | right; reflexivity | reflexivity].
  - apply (Hscenario scenario_table "All" [] [] [] []); [reflexivity|].
    intros r Hr. reflexivity.
Defined.

(** C5, as the specification states it, fails: removing the only selected
    brand empties the selection, which lifts the brand constraint, and the
    result grows from three rows to five. *)
Lemma narrowing_to_empty_selection_grows :
  Nat.lt
    (length (filter_data scenario_table "All" ["X"] (0, 100000) [] [] []))
    (length (filter_data scenario_table "All"
               (List.remove (decide_rel (=)) "X" ["X"]) (0, 100000) [] [] [])).
Proof. vm_compute. lia. Qed.

(** C5 (amended).  Narrowing a specification never increases the number of
    rows of the result, where narrowing is: shrinking the price interval,
    fixing a city instead of ["All"], or removing elements from a selection
    that stays non-empty. *)
Theorem filter_monotone (table : Table) (s' s : FilterSpec) :
  narrower s' s ->
  (length (apply_spec table s') <= length (apply_spec table s))%nat.
Proof.
  intros Hn. unfold apply_spec. rewrite !filter_data_select.
  apply select_length_mono. intros r. by apply narrower_satisfies.
Qed.

Lemma filter_monotone_witness :
  Nat.le
    (length (apply_spec scenario_table
               {| spec_city := "Bhopal"; spec_brands := ["X"];
                  spec_price := (15000, 25000); spec_platforms := [];
                  spec_ram := [8%Z]; spec_storage := [] |}))
    (length (apply_spec scenario_table
               {| spec_city := "All"; spec_brands := ["X"; "Y"];
                  spec_price := (10000, 30000); spec_platforms := [];
                  spec_ram := [8%Z; 16%Z]; spec_storage := [] |})).
Proof.
  apply filter_monotone. unfold narrower, city_narrowed, set_narrowed,
    interval_narrowed. simpl.
  repeat split; try discriminate; try (by right); try (by vm_compute);
    try done; intros x Hx; apply elem_of_cons in Hx as [-> | Hx];
    solve [ repeat constructor | by apply elem_of_nil in Hx ].
Defined.

(** C7.  The filter is idempotent: filtering the result again with the same
    specification returns it unchanged. *)
Theorem filter_idempotent (table : Table) (s : FilterSpec) :
  apply_spec (apply_spec table s) s = apply_spec table s.
Proof.
  unfold apply_spec. rewrite !filter_data_select. apply select_idemp.
Qed.

(** ** Group keys *)

Section GroupByFacts.
Context {R K : Type} (cmp : K -> K -> comparison).
Hypothesis cmp_eq : forall x y, cmp x y = Eq <-> x = y.
Hypothesis cmp_antisym : forall x y, cmp x y = CompOpp (cmp y x).
Hypothesis cmp_lt_trans :
  forall x y z, cmp x y = Lt -> cmp y z = Lt -> cmp x z = Lt.

Lemma elem_of_insert_key (x k : K) (ks : list K) :
  x ∈ insert_key cmp k ks <-> x = k \/ x ∈ ks.
Proof.
  induction ks as [|k' ks IH]; simpl.
  - rewrite list_elem_of_singleton, elem_of_nil. tauto.
  - destruct (cmp k k') eqn:Hc.
    + apply cmp_eq in Hc as ->. rewrite elem_of_cons. tauto.
    + rewrite !elem_of_cons. tauto.
    + rewrite !elem_of_cons, IH. tauto.
Qed.

Lemma elem_of_group_keys (x : K) (col : list K) :
  x ∈ group_keys cmp col <-> x ∈ col.
Proof.
  unfold group_keys. induction col as [|k col IH]; simpl; [done|].
  rewrite elem_of_insert_key, IH, elem_of_cons. tauto.
Qed.

Lemma insert_key_sorted (k : K) (ks : list K) :
  StronglySorted (key_lt cmp) ks ->
  StronglySorted (key_lt cmp) (insert_key cmp k ks).
Proof.
  induction ks as [|k' ks IH]; simpl; intros Hs.
  - repeat constructor.
  - apply StronglySorted_cons in Hs as [Hall Hs].
    destruct (cmp k k') eqn:Hc.
    + by constructor.
    + constructor; [by constructor|]. constructor; [done|].
      eapply Forall_impl; [exact Hall|]. intros y Hy. by eapply cmp_lt_trans.
    + constructor; [by apply IH|].
      apply Forall_forall. intros y Hy.
      apply elem_of_insert_key in Hy as [-> | Hy].
      * unfold key_lt. rewrite cmp_antisym, Hc. done.
      * by eapply Forall_forall in Hall.
Qed.

Lemma group_keys_sorted (col : list K) :
  StronglySorted (key_lt cmp) (group_keys cmp col).
Proof.
  unfold group_keys. induction col as [|k col IH]; simpl.
  - constructor.
  - by apply insert_key_sorted.
Qed.

Lemma key_lt_irrefl (x : K) : ~ key_lt cmp x x.
Proof.
  unfold key_lt. intros H.
  rewrite (proj2 (cmp_eq x x) eq_refl) in H. discriminate.
Qed.

Lemma group_keys_NoDup (col : list K) : NoDup (group_keys cmp col).
Proof.
  pose proof (group_keys_sorted col) as Hs.
  induction Hs as [|k ks Hs IH Hall]; constructor; [|done].
  intros Hin. eapply Forall_forall in Hall; [|exact Hin].
  by apply key_lt_irrefl in Hall.
Qed.

Lemma group_keys_length `{EqDecision K} (col : list K) :
  length (group_keys cmp col) = length (remove_dups col).
Proof.
  apply Permutation_length, NoDup_Permutation.
  - apply group_keys_NoDup.
  - apply NoDup_remove_dups.
  - intros x. by rewrite elem_of_group_keys, elem_of_remove_dups.
Qed.

(** Every group of a [groupby] has at least one row: a mean over a group
    never divides by zero. *)
Lemma groupby_groups_nonempty (key : R -> K) (df : list R) (k : K) :
  k ∈ group_keys cmp (map key df) -> group_rows cmp key df k <> [].
Proof.
  rewrite elem_of_group_keys. intros Hin Hnil.
  apply list_elem_of_fmap in Hin as (r & -> & Hr).
  assert (r ∈ group_rows cmp key df (key r)) as Hin.
  { unfold group_rows. apply elem_of_select. split; [done|].
    by rewrite (proj2 (cmp_eq (key r) (key r)) eq_refl). }
  rewrite Hnil in Hin. by apply elem_of_nil in Hin.
Qed.

Lemma elem_of_groupby {V} (key : R -> K) (agg : list R -> V) (df : list R)
    (k : K) (v : V) :
  (k, v) ∈ groupby cmp key agg df
  <-> k ∈ map key df /\ v = agg (group_rows cmp key df k).
Proof.
  unfold groupby. rewrite list_elem_of_fmap. split.
  - intros (k' & [= -> ->] & Hk). by rewrite elem_of_group_keys in Hk.
  - intros [Hk ->]. exists k. by rewrite elem_of_group_keys.
Qed.

Lemma groupby_keys_sorted {V} (key : R -> K) (agg : list R -> V)
    (df : list R) :
  StronglySorted (fun a b => key_lt cmp (fst a) (fst b))
    (groupby cmp key agg df).
Proof.
  unfold groupby.
  apply (StronglySorted_fmap _ (key_lt cmp)
           (fun a b => key_lt cmp (fst a) (fst b))).
  - intros x y Hxy. exact Hxy.
  - apply group_keys_sorted.
Qed.

Lemma groupby_length `{EqDecision K} {V} (key : R -> K) (agg : list R -> V)
    (df : list R) :
  length (groupby cmp key agg df) = length (remove_dups (map key df)).
Proof. unfold groupby. by rewrite length_map, group_keys_length. Qed.
End GroupByFacts.

(** ** The order on platform names *)

Lemma string_compare_eq (x y : string) : String.compare x y = Eq <-> x = y.
Proof. apply String_as_OT.cmp_eq. Qed.

Lemma string_compare_lt_trans (x y z : string) :
  String.compare x y = Lt -> String.compare y z = Lt -> String.compare x z = Lt.
Proof.
  intros Hxy Hyz. apply String_as_OT.cmp_lt.
  apply String_as_OT.cmp_lt in Hxy, Hyz.
  eapply String_as_OT.lt_trans; eassumption.
Qed.

Lemma string_ltb_compare (x y : string) :
  String.ltb x y = true <-> String.compare x y = Lt.
Proof. unfold String.ltb. destruct (String.compare x y); split; congruence. Qed.

Lemma group_rows_platform (df : Table) (k : string) :
  group_rows String.compare Platform df k
  = select (fun r => bool_decide (Platform r = k)) df.
Proof.
  unfold group_rows. apply select_ext. intros r.
  destruct (String.compare (Platform r) k) eqn:Hc.
  - apply string_compare_eq in Hc. by rewrite bool_decide_eq_true_2.
  - rewrite bool_decide_eq_false_2; [done|]. intros He.
    apply string_compare_eq in He. congruence.
  - rewrite bool_decide_eq_false_2; [done|]. intros He.
    apply string_compare_eq in He. congruence.
Qed.

(** ** Sorting by value *)

Lemma insert_by_Permutation {A} (leb : A -> A -> bool) (x : A) (l : list A) :
  insert_by leb x l ≡ₚ x :: l.
Proof.
  induction l as [|y l IH]; simpl; [done|].
  destruct (leb x y); [done|]. rewrite IH. apply Permutation_swap.
Qed.

Lemma stable_sort_Permutation {A} (leb : A -> A -> bool) (l : list A) :
  stable_sort leb l ≡ₚ l.
Proof.
  unfold stable_sort. induction l as [|x l IH]; simpl; [done|].
  by rewrite insert_by_Permutation, IH.
Qed.

Lemma stable_sort_length {A} (leb : A -> A -> bool) (l : list A) :
  length (stable_sort leb l) = length l.
Proof. apply Permutation_length, stable_sort_Permutation. Qed.

Lemma cheaper_le (a b : string * Q) : cheaper a b -> snd a <= snd b.
Proof.
  intros [Hlt | [Heq _]]; [by apply Qlt_le_weak|]. rewrite Heq. apply Qle_refl.
Qed.

Lemma le_cheaper (a b : string * Q) :
  snd a <= snd b -> String.ltb (fst a) (fst b) = true -> cheaper a b.
Proof.
  intros Hle Hk. apply Qle_lt_or_eq in Hle as [Hlt | Heq]; [by left|by right].
Qed.

Lemma insert_cheaper_sorted (x : string * Q) (s : list (string * Q)) :
  StronglySorted cheaper s ->
  Forall (fun b => String.ltb (fst x) (fst b) = true) s ->
  StronglySorted cheaper
    (insert_by (fun a b => Qle_bool (snd a) (snd b)) x s).
Proof.
  induction s as [|y s IH]; simpl; intros Hs Hk.
  - repeat constructor.
  - apply StronglySorted_cons in Hs as [Hall Hs].
    apply Forall_cons in Hk as [Hky Hk].
    destruct (Qle_bool (snd x) (snd y)) eqn:Hle.
    + apply Qle_bool_iff in Hle. constructor; [by constructor|].
      constructor; [by apply le_cheaper|].
      apply Forall_forall. intros b Hb. apply le_cheaper.
      * eapply Qle_trans; [exact Hle|]. apply cheaper_le.
        by eapply Forall_forall in Hall.
      * by eapply Forall_forall in Hk.
    + constructor; [by apply IH|].
      apply Forall_forall. intros b Hb.
      apply (elem_of_Permutation_proper _ _ _ (insert_by_Permutation _ x s)) in Hb.
      apply elem_of_cons in Hb as [-> | Hb].
      * left. apply Qnot_le_lt. intros Hxy. apply Qle_bool_iff in Hxy.
        congruence.
      * by eapply Forall_forall in Hall.
Qed.

(** Sorting a series whose keys ascend: the result ascends by value, and by
    key among equal values. *)
Lemma sort_values_cheaper (s : list (string * Q)) :
  StronglySorted (fun a b => String.compare (fst a) (fst b) = Lt) s ->
  StronglySorted cheaper (sort_values s).
Proof.
  unfold sort_values, stable_sort.
  induction s as [|x s IH]; simpl; intros Hs; [constructor|].
  apply StronglySorted_cons in Hs as [Hall Hs].
  apply insert_cheaper_sorted; [by apply IH|].
  apply Forall_forall. intros b Hb.
  apply (elem_of_Permutation_proper _ _ _ (stable_sort_Permutation _ s)) in Hb.
  apply string_ltb_compare. by eapply Forall_forall in Hall.
Qed.

(** ** The cheapest platforms *)

Lemma elem_of_platform_mean_price (df : Table) (k : string) (m : Q) :
  (k, m) ∈ platform_mean_price df
  <-> k ∈ map Platform df /\ m = platform_mean df k.
Proof.
  unfold platform_mean_price, platform_mean.
  rewrite (elem_of_groupby String.compare string_compare_eq).
  by rewrite group_rows_platform.
Qed.

Lemma elem_of_platform_avg_price (df : Table) (a : string * Q) :
  a ∈ platform_avg_price df <-> a ∈ platform_mean_price df.
Proof.
  unfold platform_avg_price, sort_values.
  apply elem_of_Permutation_proper, stable_sort_Permutation.
Qed.

Lemma platform_avg_price_sorted (df : Table) :
  StronglySorted cheaper (platform_avg_price df).
Proof.
  apply sort_values_cheaper.
  apply (groupby_keys_sorted String.compare string_compare_eq
           String.compare_antisym string_compare_lt_trans).
Qed.

Lemma platform_avg_price_length (df : Table) :
  length (platform_avg_price df) = length (remove_dups (map Platform df)).
Proof.
  unfold platform_avg_price, sort_values, platform_mean_price.
  rewrite stable_sort_length.
  apply (groupby_length String.compare string_compare_eq
           String.compare_antisym string_compare_lt_trans).
Qed.

(** ** The object store *)

Lemma bind_run {A B} (m : Py A) (k : A -> Py B) (σ : store) :
  (m ≫= k) σ = match m σ with Some (a, σ') => k a σ' | None => None end.
Proof. reflexivity. Qed.

Lemma alloc_run (o : pyobj) (σ : store) :
  exists l, alloc o σ = Some (l, <[l := o]> σ) /\ σ !! l = None.
Proof.
  exists (fresh (dom σ)). split; [done|].
  apply not_elem_of_dom, is_fresh.
Qed.

Lemma builds_alloc (σ0 σ : store) (o : pyobj) :
  σ0 ⊆ σ -> builds σ0 o (alloc o σ).
Proof.
  intros Hsub. destruct (alloc_run o σ) as (l & -> & Hl).
  exists l, (<[l := o]> σ). split; [done|]. split; [|split].
  - etrans; [exact Hsub|]. by apply insert_subseteq.
  - destruct (σ0 !! l) eqn:H0; [|done].
    eapply lookup_weaken in H0; [|exact Hsub]. congruence.
  - apply lookup_insert_eq.
Qed.

Lemma builds_bind (σ0 σ : store) (o o' : pyobj) (m : Py ref)
    (k : ref -> Py ref) :
  builds σ0 o (m σ) ->
  (forall r σ1, builds σ0 o (Some (r, σ1)) -> builds σ0 o' (k r σ1)) ->
  builds σ0 o' ((m ≫= k) σ).
Proof.
  intros (r & σ1 & Hm & H) Hk. rewrite bind_run, Hm. apply Hk.
  by exists r, σ1.
Qed.

Lemma builds_copy (σ0 : store) (df : ref) (rows : Table) :
  σ0 !! df = Some (DataFrame rows) ->
  builds σ0 (DataFrame rows) (copy_st df σ0).
Proof.
  intros Hdf. unfold copy_st, read_frame. rewrite bind_run, Hdf.
  by apply builds_alloc.
Qed.

Lemma builds_select (σ0 σ : store) (mask : Listing -> bool) (df : ref)
    (rows : Table) :
  builds σ0 (DataFrame rows) (Some (df, σ)) ->
  builds σ0 (DataFrame (select mask rows)) (select_st mask df σ).
Proof.
  intros (r & σ' & [= <- <-] & Hsub & _ & Hdf).
  unfold select_st, read_frame. rewrite bind_run, Hdf.
  by apply builds_alloc.
Qed.

Lemma builds_select_guarded (σ0 σ : store) (guard : bool)
    (mask : Listing -> bool) (df : ref) (rows : Table) :
  builds σ0 (DataFrame rows) (Some (df, σ)) ->
  builds σ0 (DataFrame (if guard then select mask rows else rows))
    ((if guard then select_st mask df else mret df) σ).
Proof. intros H. destruct guard; [by apply builds_select|exact H]. Qed.

Lemma filter_data_st_builds (σ : store) (df : ref) (rows : Table) city brands
    price_range platforms ram_sizes storage_sizes :
  σ !! df = Some (DataFrame rows) ->
  builds σ
    (DataFrame (filter_data rows city brands price_range platforms ram_sizes
                  storage_sizes))
    (filter_data_st df city brands price_range platforms ram_sizes
       storage_sizes σ).
Proof.
  intros Hdf. unfold filter_data_st, filter_data. cbv zeta.
  eapply builds_bind; [by apply builds_copy|]. intros r1 σ1 H1.
  eapply builds_bind; [by apply builds_select_guarded|]. intros r2 σ2 H2.
  eapply builds_bind; [by apply builds_select_guarded|]. intros r3 σ3 H3.
  eapply builds_bind; [by apply builds_select|]. intros r4 σ4 H4.
  eapply builds_bind; [by apply builds_select_guarded|]. intros r5 σ5 H5.
  eapply builds_bind; [by apply builds_select_guarded|]. intros r6 σ6 H6.
  eapply builds_bind; [by apply builds_select_guarded|]. intros r7 σ7 H7.
  exact H7.
Qed.

Lemma platform_stats_st_builds (σ : store) (df : ref) (rows : Table) :
  σ !! df = Some (DataFrame rows) ->
  builds σ
    (StatsFrame ["Platform"; "Average_Price"; "Count"] (platform_stats rows))
    (platform_stats_st df σ).
Proof.
  intros Hdf. unfold platform_stats_st, read_frame. rewrite bind_run, Hdf.
  rewrite bind_run.
  destruct (alloc_run
              (StatsFrame ["Platform"; "mean"; "count"] (platform_stats rows)) σ)
    as (l & -> & Hl).
  rewrite bind_run. unfold set_columns. rewrite lookup_insert_eq. simpl.
  exists l. eexists. split; [done|]. split; [|split; [done|]].
  - rewrite insert_insert_eq. by apply insert_subseteq.
  - apply lookup_insert_eq.
Qed.

Lemma get_cheapest_platforms_st_builds (σ : store) (df : ref) (rows : Table) :
  σ !! df = Some (DataFrame rows) ->
  builds σ (Series (get_cheapest_platforms rows))
    (get_cheapest_platforms_st df σ).
Proof.
  intros Hdf. unfold get_cheapest_platforms_st, read_frame.
  rewrite bind_run, Hdf. rewrite bind_run.
  destruct (alloc_run (Series (platform_mean_price rows)) σ) as (l1 & -> & Hl1).
  rewrite bind_run. unfold read_series at 1. rewrite lookup_insert_eq.
  rewrite bind_run.
  destruct (alloc_run (Series (sort_values (platform_mean_price rows)))
              (<[l1 := Series (platform_mean_price rows)]> σ))
    as (l2 & -> & Hl2).
  rewrite bind_run. unfold read_series. rewrite lookup_insert_eq.
  apply builds_alloc.
  etrans; [by apply insert_subseteq|]. by apply insert_subseteq.
Qed.

Lemma builds_frame (σ0 : store) (o : pyobj) (run : option (ref * store)) :
  builds σ0 o run ->
  exists out σ', run = Some (out, σ') /\
    (forall l x, σ0 !! l = Some x -> σ' !! l = Some x /\ out <> l) /\
    σ' !! out = Some o.
Proof.
  intros (r & σ' & -> & Hsub & Hfresh & Hout). exists r, σ'.
  split; [done|]. split; [|done]. intros l x Hl. split.
  - by eapply lookup_weaken.
  - intros ->. congruence.
Qed.

(** ** The aggregation engine and the store: claims *)

(** C6.  On the empty table every aggregation returns an empty result:
    mean price and count per platform, mean price per memory size and per
    storage size, the platform counts and the cheapest platforms.  No
    aggregation divides by zero: on every table, each group has at least one
    row.  Run on the store, the aggregations of an empty frame end without a
    fault and build an empty result. *)
Theorem aggregations_total_on_empty :
  (platform_stats [] = [] /\ ram_price [] = [] /\ storage_price [] = [] /\
   platform_counts [] = [] /\ get_cheapest_platforms [] = []) /\
  (forall (df : Table) k,
     k ∈ group_keys String.compare (map Platform df) ->
     group_rows String.compare Platform df k <> []) /\
  (forall df k m n, (k, (m, n)) ∈ platform_stats df -> n <> 0%nat) /\
  (forall (σ : store) (df : ref),
     σ !! df = Some (DataFrame []) ->
     (exists out σ',
        platform_stats_st df σ = Some (out, σ') /\
        σ' !! out = Some (StatsFrame ["Platform"; "Average_Price"; "Count"] [])) /\
     (exists out σ',
        get_cheapest_platforms_st df σ = Some (out, σ') /\
        σ' !! out = Some (Series []))).
Proof.
  split; [by repeat split|]. split; [|split].
  - intros df k. apply (groupby_groups_nonempty _ string_compare_eq).
  - intros df k m n Hin. unfold platform_stats in Hin.
    apply (elem_of_groupby _ string_compare_eq) in Hin as [Hk [= _ ->]].
    intros Hlen. apply length_zero_iff_nil in Hlen. revert Hlen.
    apply (groupby_groups_nonempty _ string_compare_eq).
    by apply (elem_of_group_keys _ string_compare_eq).
  - intros σ df Hdf. split.
    + destruct (builds_frame _ _ _ (platform_stats_st_builds σ df [] Hdf))
        as (out & σ' & Hrun & _ & Hout).
      by exists out, σ'.
    + destruct (builds_frame _ _ _ (get_cheapest_platforms_st_builds σ df [] Hdf))
        as (out & σ' & Hrun & _ & Hout).
      by exists out, σ'.
Qed.

Lemma aggregations_total_on_empty_witness :
  group_rows String.compare Platform scenario_table "Croma" <> [] /\
  (exists out σ',
     get_cheapest_platforms_st 0%nat {[ 0%nat := DataFrame [] ]}
     = Some (out, σ') /\
     σ' !! out = Some (Series [])).
Proof.
  destruct aggregations_total_on_empty as (_ & Hrows & _ & Hst).
  split.
  - apply Hrows. vm_compute. do 2 constructor.
  - apply (Hst {[ 0%nat := DataFrame [] ]} 0%nat). reflexivity.
Defined.

(** C8.  [filter_data] never mutates its input: run on any store in which
    [df] is a frame, it ends without a fault, the frame at [df] and every
    other object of the store are unchanged, and the result is a new object
    (not [df]) holding the filtered rows.  The same holds of the
    aggregations [create_platform_comparison_chart] (whose renaming of
    columns changes only the frame it has just built) and
    [get_cheapest_platforms]. *)
Theorem filter_data_never_mutates :
  (forall (σ : store) (df : ref) (rows : Table) city brands price_range
          platforms ram_sizes storage_sizes,
     σ !! df = Some (DataFrame rows) ->
     exists out σ',
       filter_data_st df city brands price_range platforms ram_sizes
         storage_sizes σ = Some (out, σ') /\
       σ' !! df = Some (DataFrame rows) /\
       (forall l x, σ !! l = Some x -> σ' !! l = Some x) /\
       out <> df /\
       σ' !! out
       = Some (DataFrame (filter_data rows city brands price_range platforms
                            ram_sizes storage_sizes))) /\
  (forall (σ : store) (df : ref) (rows : Table),
     σ !! df = Some (DataFrame rows) ->
     exists out σ',
       platform_stats_st df σ = Some (out, σ') /\
       σ' !! df = Some (DataFrame rows) /\
       (forall l x, σ !! l = Some x -> σ' !! l = Some x) /\
       out <> df /\
       σ' !! out
       = Some (StatsFrame ["Platform"; "Average_Price"; "Count"]
                 (platform_stats rows))) /\
  (forall (σ : store) (df : ref) (rows : Table),
     σ !! df = Some (DataFrame rows) ->
     exists out σ',
       get_cheapest_platforms_st df σ = Some (out, σ') /\
       σ' !! df = Some (DataFrame rows) /\
       (forall l x, σ !! l = Some x -> σ' !! l = Some x) /\
       out <> df /\
       σ' !! out = Some (Series (get_cheapest_platforms rows))).
Proof.
  assert (Hframe : forall (σ : store) (df : ref) (rows : Table) o run,
            σ !! df = Some (DataFrame rows) -> builds σ o run ->
            exists out σ', run = Some (out, σ') /\
              σ' !! df = Some (DataFrame rows) /\
              (forall l x, σ !! l = Some x -> σ' !! l = Some x) /\
              out <> df /\ σ' !! out = Some o).
  { intros σ df rows o run Hdf Hb.
    apply builds_frame in Hb as (out & σ' & Hrun & Hkeep & Hout).
    exists out, σ'. split; [done|]. split; [by apply Hkeep|].
    split; [intros l x Hl; by apply Hkeep|].
    split; [by eapply Hkeep|done]. }
  split; [|split].
  - intros σ df rows city brands price_range platforms ram_sizes storage_sizes
      Hdf.
    eapply Hframe; [exact Hdf|]. by apply filter_data_st_builds.
  - intros σ df rows Hdf.
    eapply Hframe; [exact Hdf|]. by apply platform_stats_st_builds.
  - intros σ df rows Hdf.
    eapply Hframe; [exact Hdf|]. by apply get_cheapest_platforms_st_builds.
Qed.

Lemma filter_data_never_mutates_witness :
  exists out σ',
    filter_data_st 0%nat "Bhopal" ["X"] (10000, 30000) [] [] []
      {[ 0%nat := DataFrame scenario_table ]} = Some (out, σ') /\
    σ' !! 0%nat = Some (DataFrame scenario_table) /\
    out <> 0%nat.
Proof.
  destruct filter_data_never_mutates as (Hfilter & _ & _).
  destruct (Hfilter {[ 0%nat := DataFrame scenario_table ]} 0%nat scenario_table
              "Bhopal" ["X"] (10000, 30000) [] [] [])
    as (out & σ' & Hrun & Hdf & _ & Hne & _); [reflexivity|].
  by exists out, σ'.
Defined.

(** ** The loader *)

Section LoaderFacts.
Context {B rng : Type}.
Context (seed : Z -> rng).
Context (randint : nat -> rng -> nat * rng).
Context (random_sample : rng -> Q * rng).

Lemma choice_length (a : list string) (size : nat) (g : rng) :
  length (fst (choice randint a size g)) = size.
Proof.
  revert g. induction size as [|size IH]; intros g; simpl; [done|].
  destruct (randint (length a) g) as [i g1].
  specialize (IH g1). destruct (choice randint a size g1) as [xs g2].
  simpl in *. by rewrite IH.
Qed.

Lemma uniform_length (low high : Q) (size : nat) (g : rng) :
  length (fst (uniform random_sample low high size g)) = size.
Proof.
  revert g. induction size as [|size IH]; intros g; simpl; [done|].
  destruct (random_sample g) as [u g1].
  specialize (IH g1). destruct (uniform random_sample low high size g1)
    as [xs g2].
  simpl in *. by rewrite IH.
Qed.

Lemma assign_columns_columns (df : list B) (platform city : list string)
    (rating : list Q) :
  length platform = length df -> length city = length df ->
  length rating = length df ->
  let t := assign_columns df platform city rating in
  map base t = df /\ map Platform t = platform /\ map City t = city /\
  map Rating t = rating.
Proof.
  revert platform city rating.
  induction df as [|b df IH]; intros [|p ps] [|c cs] [|x xs]; simpl;
    try discriminate; [done|].
  intros [= Hp] [= Hc] [= Hx].
  destruct (IH ps cs xs Hp Hc Hx) as (-> & -> & -> & ->). done.
Qed.

(** A successful read: the table returned and the world left behind
    depend on the rows read, and on nothing else. *)
Lemma load_data_returns (df : list B) (w : world rng) :
  exists t g,
    load_data seed randint random_sample (Returns df) w
    = (Returns (Some t), {| np_random := g; st_errors := st_errors w |}) /\
    (forall w', exists g',
       load_data seed randint random_sample (Returns df) w'
       = (Returns (Some t), {| np_random := g'; st_errors := st_errors w' |})) /\
    map base t = df /\
    length t = length df.
Proof.
  unfold load_data.
  pose proof (choice_length
    ["Amazon"; "Flipkart"; "Reliance Digital"; "Croma"; "Vijay Sales"]
    (length df) (seed 42)) as Hp.
  destruct (choice randint _ (length df) (seed 42)) as [platform_col g1].
  pose proof (choice_length
    ["Bhopal"; "Mumbai"; "Delhi"; "Bangalore"; "Chennai"; "Kolkata"; "Pune";
     "Hyderabad"] (length df) g1) as Hc.
  destruct (choice randint _ (length df) g1) as [city_col g2].
  pose proof (uniform_length 3 5 (length df) g2) as Hu.
  destruct (uniform random_sample 3 5 (length df) g2) as [u g3].
  simpl in Hp, Hc, Hu.
  eexists _, g3. split; [reflexivity|]. split; [by eexists|].
  destruct (assign_columns_columns df platform_col city_col (map round1 u))
    as (Hbase & _); [done|done|by rewrite length_map|].
  split; [done|]. by rewrite <- Hbase at 2; rewrite length_map.
Qed.
End LoaderFacts.

(** With the counter generator, three rows get these derived columns. *)
Example load_data_sample :
  fst (load_data counter_seed counter_randint counter_random_sample
         (Returns ["r1"; "r2"; "r3"]) {| np_random := 7%nat; st_errors := [] |})
  = Returns (Some
      [ {| base := "r1"; Platform := "Reliance Digital"; City := "Kolkata";
           Rating := round1 (3 + (5 - 3) * (8 / 10)) |};
        {| base := "r2"; Platform := "Croma"; City := "Pune";
           Rating := round1 (3 + (5 - 3) * (9 / 10)) |};
        {| base := "r3"; Platform := "Vijay Sales"; City := "Hyderabad";
           Rating := round1 (3 + (5 - 3) * (0 / 10)) |} ]).
Proof. reflexivity. Qed.

(** C9.  Column derivation is deterministic: whatever the state of the
    global generator before each run, two loads of the same base table (the
    seed is set to 42 on each) return tables whose [Platform], [City] and
    [Rating] columns are identical row for row, next to the unchanged base
    rows. *)
Theorem load_data_deterministic {B rng : Type} (seed : Z -> rng)
    (randint : nat -> rng -> nat * rng) (random_sample : rng -> Q * rng)
    (df : list B) (w1 w2 : world rng) :
  exists t1 t2,
    fst (load_data seed randint random_sample (Returns df) w1)
    = Returns (Some t1) /\
    fst (load_data seed randint random_sample (Returns df) w2)
    = Returns (Some t2) /\
    map Platform t1 = map Platform t2 /\
    map City t1 = map City t2 /\
    map Rating t1 = map Rating t2 /\
    map base t1 = df /\ map base t2 = df /\
    length t1 = length df.
Proof.
  destruct (load_data_returns seed randint random_sample df w1)
    as (t & g & Hrun1 & Hany & Hbase & Hlen).
  destruct (Hany w2) as (g' & Hrun2).
  exists t, t. rewrite Hrun1, Hrun2. done.
Qed.

(** C10 (amended).  [load_data] does not propagate an exception that
    derives from [Exception]: whether reading the file returns rows or fails
    with such an error (missing file, malformed data, ...), [load_data]
    returns, and it returns [None] exactly when reading failed.  Rows of
    another schema are read without error and come back augmented. *)
Theorem load_data_never_raises {B rng : Type} (seed : Z -> rng)
    (randint : nat -> rng -> nat * rng) (random_sample : rng -> Q * rng)
    (read_csv : outcome (list B)) (w : world rng) :
  match read_csv with
  | Raises e => is_Exception e = true
  | Returns _ => True
  end ->
  exists v w',
    load_data seed randint random_sample read_csv w = (Returns v, w') /\
    (v = None <-> exists e, read_csv = Raises e) /\
    (forall df, read_csv = Returns df ->
       exists t, v = Some t /\ map base t = df).
Proof.
  destruct read_csv as [df | e]; intros He.
  - destruct (load_data_returns seed randint random_sample df w)
      as (t & g & Hrun & _ & Hbase & _).
    eexists _, _. split; [exact Hrun|]. split.
    + split; [discriminate|]. intros [e [=]].
    + intros df' [= <-]. by exists t.
  - unfold load_data. rewrite He. eexists _, _. split; [reflexivity|]. split.
    + split; [by exists e|done].
    + intros df [=].
Qed.

Lemma load_data_never_raises_witness :
  exists w',
    load_data counter_seed counter_randint counter_random_sample
      (Raises (FileNotFoundError "No such file or directory") : outcome (list Laptop))
      {| np_random := 0%nat; st_errors := [] |}
    = (Returns None, w').
Proof.
  destruct (load_data_never_raises counter_seed counter_randint
              counter_random_sample
              (Raises (FileNotFoundError "No such file or directory")
                 : outcome (list Laptop))
              {| np_random := 0%nat; st_errors := [] |})
    as (v & w' & Hrun & [_ Hnone] & _); [reflexivity|].
  exists w'. rewrite Hrun. f_equal. f_equal. apply Hnone. by eexists.
Defined.

(** * Further properties *)

(** ** Composing filters *)

Lemma select_comm {R} (f g : R -> bool) (l : list R) :
  select g (select f l) = select f (select g l).
Proof.
  rewrite !select_select. apply select_ext. intros r. apply andb_comm.
Qed.

Lemma select_none {R} (f : R -> bool) (l : list R) :
  (forall r, r ∈ l -> f r = false) -> select f l = [].
Proof.
  unfold select. induction l as [|x l IH]; simpl; intros H; [done|].
  rewrite (H x) by constructor. apply IH. intros r Hr. apply H.
  by constructor.
Qed.

Lemma select_app {R} (f : R -> bool) (l1 l2 : list R) :
  select f (l1 ++ l2) = select f l1 ++ select f l2.
Proof. unfold select. apply List.filter_app. Qed.

(** X1.  Two filters applied one after the other give the same table in
    either order: the rows of the input that satisfy both specifications,
    in table order. *)
Theorem filters_commute (table : Table) (s1 s2 : FilterSpec) :
  apply_spec (apply_spec table s1) s2 = apply_spec (apply_spec table s2) s1 /\
  apply_spec (apply_spec table s1) s2
  = List.filter (fun r =>
      satisfies (spec_city s1) (spec_brands s1) (spec_price s1)
        (spec_platforms s1) (spec_ram s1) (spec_storage s1) r &&
      satisfies (spec_city s2) (spec_brands s2) (spec_price s2)
        (spec_platforms s2) (spec_ram s2) (spec_storage s2) r) table.
Proof.
  unfold apply_spec. rewrite !filter_data_select. split.
  - apply select_comm.
  - by rewrite select_select.
Qed.

(** X2.  A price interval whose lower end lies above its upper end selects
    no row: the result is the empty table, whatever the other settings. *)
Theorem inverted_interval_selects_nothing (df : Table) city brands (low high : Q)
    platforms ram_sizes storage_sizes :
  high < low ->
  filter_data df city brands (low, high) platforms ram_sizes storage_sizes = [].
Proof.
  intros Hlt. rewrite filter_data_select. apply select_none. intros r _.
  destruct (satisfies city brands (low, high) platforms ram_sizes
              storage_sizes r) eqn:Hs; [|done].
  apply satisfies_true in Hs as (_ & _ & [Hlo Hhi] & _). simpl in *.
  exfalso. apply (Qlt_irrefl low).
  eapply Qle_lt_trans; [|exact Hlt]. by eapply Qle_trans.
Qed.

Lemma inverted_interval_selects_nothing_witness :
  filter_data scenario_table "All" [] (25000, 15000) [] [] [] = [].
Proof.
  apply inverted_interval_selects_nothing. reflexivity.
Defined.

(** X3.  The filter works row by row: filtering two tables laid end to end
    gives the two filtered tables laid end to end. *)
Theorem filter_data_app (df1 df2 : Table) city brands price_range platforms
    ram_sizes storage_sizes :
  filter_data (df1 ++ df2) city brands price_range platforms ram_sizes
    storage_sizes
  = filter_data df1 city brands price_range platforms ram_sizes storage_sizes
    ++ filter_data df2 city brands price_range platforms ram_sizes
         storage_sizes.
Proof. rewrite !filter_data_select. apply select_app. Qed.

(** ** The groups partition the table *)

Section GroupPartition.
Context {R K : Type} (cmp : K -> K -> comparison).
Hypothesis cmp_eq : forall x y, cmp x y = Eq <-> x = y.

Lemma group_rows_cons (key : R -> K) (x : R) (df : list R) (k : K) :
  group_rows cmp key (x :: df) k
  = match cmp (key x) k with
    | Eq => x :: group_rows cmp key df k
    | _ => group_rows cmp key df k
    end.
Proof. unfold group_rows, select. simpl. by destruct (cmp (key x) k). Qed.

Lemma elem_of_group_rows (key : R -> K) (df : list R) (k : K) (r : R) :
  r ∈ group_rows cmp key df k <-> r ∈ df /\ key r = k.
Proof.
  unfold group_rows. rewrite elem_of_select, <- cmp_eq.
  destruct (cmp (key r) k); split; intros [? ?]; split; done.
Qed.

(** Over keys without duplicates, a row whose key is among them is counted
    in exactly one group. *)
Lemma indicator_sum_notin (k0 : K) (keys : list K) :
  k0 ∉ keys ->
  sum_list_with
    (fun k => match cmp k0 k with Eq => 1%nat | _ => 0%nat end) keys = 0%nat.
Proof.
  induction keys as [|k keys IH]; simpl; intros Hnotin; [done|].
  apply not_elem_of_cons in Hnotin as [Hne Hnotin]. rewrite IH by done.
  destruct (cmp k0 k) eqn:Hc; [|done|done].
  apply cmp_eq in Hc. done.
Qed.

Lemma indicator_sum (k0 : K) (keys : list K) :
  NoDup keys -> k0 ∈ keys ->
  sum_list_with
    (fun k => match cmp k0 k with Eq => 1%nat | _ => 0%nat end) keys = 1%nat.
Proof.
  induction 1 as [|k keys Hnotin Hnd IH]; intros Hin.
  - by apply elem_of_nil in Hin.
  - simpl. destruct (cmp k0 k) eqn:Hc.
    + apply cmp_eq in Hc as <-. by rewrite indicator_sum_notin.
    + apply elem_of_cons in Hin as [-> | Hin].
      * rewrite (proj2 (cmp_eq k k) eq_refl) in Hc. discriminate.
      * by rewrite IH.
    + apply elem_of_cons in Hin as [-> | Hin].
      * rewrite (proj2 (cmp_eq k k) eq_refl) in Hc. discriminate.
      * by rewrite IH.
Qed.

Lemma sum_list_with_pointwise {A} (f g : A -> nat) (l : list A) :
  (forall a, f a = g a) -> sum_list_with f l = sum_list_with g l.
Proof. intros H. induction l as [|a l IH]; simpl; [done|]. by rewrite H, IH. Qed.

Lemma sum_list_with_plus {A} (f g : A -> nat) (l : list A) :
  sum_list_with (fun a => (f a + g a)%nat) l
  = (sum_list_with f l + sum_list_with g l)%nat.
Proof. induction l as [|a l IH]; simpl; [done|]. rewrite IH. lia. Qed.

Lemma group_count_sum (key : R -> K) (df : list R) (keys : list K) :
  NoDup keys -> (forall r, r ∈ df -> key r ∈ keys) ->
  sum_list_with (fun k => length (group_rows cmp key df k)) keys = length df.
Proof.
  intros Hnd. induction df as [|x df IH]; intros Hin.
  - clear Hnd Hin. induction keys as [|k keys IHk]; simpl; [done|].
    exact IHk.
  - cbn [length]. rewrite <- IH by (intros r Hr; apply Hin; by constructor).
    rewrite (sum_list_with_pointwise _
      (fun k => (match cmp (key x) k with Eq => 1 | _ => 0 end
                 + length (group_rows cmp key df k))%nat)).
    + rewrite sum_list_with_plus.
      by rewrite (indicator_sum _ _ Hnd) by (apply Hin; constructor).
    + intros k. rewrite group_rows_cons. by destruct (cmp (key x) k).
Qed.

End GroupPartition.

(** ** Distinct values and sorted lists *)

Lemma uniq_from `{EqDecision A} (col seen : list A) :
  NoDup seen ->
  let out := fold_left
    (fun seen x => if decide (x ∈ seen) then seen else seen ++ [x]) col seen in
  NoDup out /\ (forall x, x ∈ out <-> x ∈ seen \/ x ∈ col) /\
  exists rest, out = seen ++ rest.
Proof.
  revert seen. induction col as [|y col IH]; intros seen Hnd; simpl.
  - split; [done|]. split.
    + intros x. rewrite elem_of_nil. tauto.
    + exists []. by rewrite app_nil_r.
  - destruct (decide (y ∈ seen)) as [Hy | Hy].
    + destruct (IH seen Hnd) as (Hnd' & Hin & Hpre). split; [done|].
      split; [|done]. intros x. rewrite Hin, elem_of_cons.
      split; [tauto|]. intros [H | [-> | H]]; tauto.
    + assert (NoDup (seen ++ [y])) as Hnd2.
      { apply NoDup_app. split; [done|]. split; [|apply NoDup_singleton].
        intros x Hx Hx'. apply list_elem_of_singleton in Hx' as ->. done. }
      destruct (IH (seen ++ [y]) Hnd2) as (Hnd' & Hin & [rest Hrest]).
      split; [exact Hnd'|]. split.
      * intros x. rewrite Hin, elem_of_app, list_elem_of_singleton,
          elem_of_cons. tauto.
      * exists (y :: rest). rewrite Hrest. by rewrite <- app_assoc.
Qed.

Lemma uniq_NoDup `{EqDecision A} (col : list A) : NoDup (uniq col).
Proof. apply (uniq_from col []). constructor. Qed.

Lemma elem_of_uniq `{EqDecision A} (col : list A) (x : A) :
  x ∈ uniq col <-> x ∈ col.
Proof.
  destruct (uniq_from col [] (NoDup_nil_2)) as (_ & Hin & _).
  unfold uniq. rewrite Hin, elem_of_nil. tauto.
Qed.

Lemma unique_uniq (col : list string) : unique col = uniq col.
Proof. reflexivity. Qed.

(** The first distinct value is the first value. *)
Lemma uniq_head `{EqDecision A} (x : A) (col : list A) :
  exists rest, uniq (x :: col) = x :: rest.
Proof.
  unfold uniq. simpl. destruct (decide (x ∈ [])) as [H | _].
  - by apply elem_of_nil in H.
  - simpl. destruct (uniq_from col [x]) as (_ & _ & [rest Hrest]).
    + apply NoDup_singleton.
    + exists rest. exact Hrest.
Qed.

Section SortFacts.
Context {A : Type} (leb : A -> A -> bool).
Hypothesis leb_total : forall x y, leb x y = true \/ leb y x = true.
Hypothesis leb_trans :
  forall x y z, leb x y = true -> leb y z = true -> leb x z = true.

Lemma insert_by_sorted (x : A) (l : list A) :
  StronglySorted (fun a b => leb a b = true) l ->
  StronglySorted (fun a b => leb a b = true) (insert_by leb x l).
Proof.
  induction l as [|y l IH]; simpl; intros Hs.
  - repeat constructor.
  - apply StronglySorted_cons in Hs as [Hall Hs].
    destruct (leb x y) eqn:Hxy.
    + constructor; [by constructor|]. constructor; [done|].
      eapply Forall_impl; [exact Hall|]. intros z Hz. by eapply leb_trans.
    + constructor; [by apply IH|].
      apply Forall_forall. intros z Hz.
      apply (elem_of_Permutation_proper _ _ _ (insert_by_Permutation _ x l))
        in Hz.
      apply elem_of_cons in Hz as [-> | Hz].
      * destruct (leb_total x y) as [H | H]; [congruence|done].
      * by eapply Forall_forall in Hall.
Qed.

Lemma stable_sort_sorted (l : list A) :
  StronglySorted (fun a b => leb a b = true) (stable_sort leb l).
Proof.
  unfold stable_sort. induction l as [|x l IH]; simpl; [constructor|].
  by apply insert_by_sorted.
Qed.
End SortFacts.

Lemma StronglySorted_rev {A} (R : relation A) (l : list A) :
  StronglySorted R l -> StronglySorted (flip R) (rev l).
Proof.
  induction 1 as [|x l Hs IH Hall]; simpl; [constructor|].
  apply StronglySorted_app_2; [|done|repeat constructor].
  intros a b Ha Hb. apply list_elem_of_singleton in Hb as ->.
  apply list_elem_of_In, in_rev, list_elem_of_In in Ha.
  unfold flip. by eapply Forall_forall in Hall.
Qed.

Lemma sum_list_with_map {A B} (f : B -> nat) (g : A -> B) (l : list A) :
  sum_list_with f (map g l) = sum_list_with (fun a => f (g a)) l.
Proof. induction l as [|a l IH]; simpl; [done|]. by rewrite IH. Qed.

Lemma sum_list_with_Permutation {A} (f : A -> nat) (l1 l2 : list A) :
  l1 ≡ₚ l2 -> sum_list_with f l1 = sum_list_with f l2.
Proof. induction 1; simpl; lia. Qed.

(** ** Aggregations of a table *)

Lemma Z_compare_eq (x y : Z) : Z.compare x y = Eq <-> x = y.
Proof. apply Z.compare_eq_iff. Qed.

Lemma Z_compare_antisym (x y : Z) : Z.compare x y = CompOpp (Z.compare y x).
Proof. apply Z.compare_antisym. Qed.

Lemma Z_compare_lt_trans (x y z : Z) :
  Z.compare x y = Lt -> Z.compare y z = Lt -> Z.compare x z = Lt.
Proof. rewrite !Z.compare_lt_iff. lia. Qed.

Lemma StronglySorted_impl {A} (R1 R2 : relation A) (l : list A) :
  (forall a b, R1 a b -> R2 a b) ->
  StronglySorted R1 l -> StronglySorted R2 l.
Proof.
  intros H. induction 1 as [|x l Hs IH Hall]; constructor; [done|].
  eapply Forall_impl; [exact Hall|]. auto.
Qed.

Lemma platform_keys_NoDup (df : Table) :
  NoDup (group_keys String.compare (map Platform df)).
Proof.
  apply (group_keys_NoDup String.compare string_compare_eq
           String.compare_antisym string_compare_lt_trans).
Qed.

Lemma groupby_keys {R K V} (cmp : K -> K -> comparison) (key : R -> K)
    (agg : list R -> V) (df : list R) :
  map fst (groupby cmp key agg df) = group_keys cmp (map key df).
Proof.
  unfold groupby. rewrite map_map. simpl. apply map_id.
Qed.

Lemma platform_column_keys (df : Table) (r : Listing) :
  r ∈ df -> Platform r ∈ group_keys String.compare (map Platform df).
Proof.
  intros Hr. apply (elem_of_group_keys _ string_compare_eq).
  apply list_elem_of_fmap. by exists r.
Qed.

Lemma platform_stats_count_sum (df : Table) :
  sum_list_with (fun e => snd (snd e)) (platform_stats df) = length df.
Proof.
  unfold platform_stats, groupby. rewrite sum_list_with_map. simpl.
  apply (group_count_sum _ string_compare_eq).
  - apply platform_keys_NoDup.
  - apply platform_column_keys.
Qed.

(** X4.  The platform statistics account for every row exactly once: the
    counts of the platforms add up to the number of rows of the table, and
    no platform is listed with a count of zero. *)
Theorem platform_stats_totals (df : Table) :
  sum_list_with (fun e => snd (snd e)) (platform_stats df) = length df /\
  (forall e, e ∈ platform_stats df -> (1 <= snd (snd e))%nat).
Proof.
  split; [apply platform_stats_count_sum|].
  intros [k [m n]] Hin. unfold platform_stats in Hin.
  apply (elem_of_groupby _ string_compare_eq) in Hin as [Hk [= _ ->]].
  simpl. pose proof (groupby_groups_nonempty String.compare string_compare_eq
                       Platform df k) as Hne.
  destruct (group_rows String.compare Platform df k).
  - exfalso. apply Hne; [|done].
    by apply (elem_of_group_keys _ string_compare_eq).
  - simpl. lia.
Qed.

(** X5.  The chart frames list every group once, in ascending order of
    its key: the platforms by name, the memory sizes and the storage sizes
    by number; the keys are exactly the values that occur in the table. *)
Theorem chart_keys_ascending (df : Table) :
  (StronglySorted (fun a b => String.ltb (fst a) (fst b) = true)
     (platform_stats df) /\
   forall k, k ∈ map fst (platform_stats df) <-> k ∈ map Platform df) /\
  (StronglySorted (fun a b => (fst a < fst b)%Z) (ram_price df) /\
   forall k, k ∈ map fst (ram_price df)
             <-> k ∈ map (fun r => RAM_Size (base r)) df) /\
  (StronglySorted (fun a b => (fst a < fst b)%Z) (storage_price df) /\
   forall k, k ∈ map fst (storage_price df)
             <-> k ∈ map (fun r => Storage_Capacity (base r)) df).
Proof.
  split; [|split]; split.
  - eapply StronglySorted_impl;
      [|apply (groupby_keys_sorted String.compare string_compare_eq
                 String.compare_antisym string_compare_lt_trans)].
    intros a b Hab. by apply string_ltb_compare.
  - intros k. unfold platform_stats. rewrite groupby_keys.
    apply (elem_of_group_keys _ string_compare_eq).
  - eapply StronglySorted_impl;
      [|apply (groupby_keys_sorted Z.compare Z_compare_eq Z_compare_antisym
                 Z_compare_lt_trans)].
    intros a b Hab. by apply Z.compare_lt_iff.
  - intros k. unfold ram_price. rewrite groupby_keys.
    apply (elem_of_group_keys _ Z_compare_eq).
  - eapply StronglySorted_impl;
      [|apply (groupby_keys_sorted Z.compare Z_compare_eq Z_compare_antisym
                 Z_compare_lt_trans)].
    intros a b Hab. by apply Z.compare_lt_iff.
  - intros k. unfold storage_price. rewrite groupby_keys.
    apply (elem_of_group_keys _ Z_compare_eq).
Qed.

(** ** The platform counts *)

Lemma value_counts_Permutation (col : list string) :
  value_counts col
  ≡ₚ map (fun k => (k, length (List.filter (fun x => bool_decide (x = k)) col)))
       (uniq col).
Proof.
  unfold value_counts, sort_values_desc.
  rewrite <- Permutation_rev, stable_sort_Permutation, <- Permutation_rev.
  by rewrite unique_uniq.
Qed.

Lemma count_in_column (df : Table) (k : string) :
  length (List.filter (fun x => bool_decide (x = k)) (map Platform df))
  = length (select (fun r => bool_decide (Platform r = k)) df).
Proof.
  unfold select. induction df as [|r df IH]; simpl; [done|].
  destruct (bool_decide (Platform r = k)); simpl; by rewrite IH.
Qed.

Lemma value_counts_sum (col : list string) :
  sum_list_with snd (value_counts col) = length col.
Proof.
  rewrite (sum_list_with_Permutation _ _ _ (value_counts_Permutation col)).
  rewrite sum_list_with_map. simpl.
  rewrite <- (group_count_sum String.compare string_compare_eq id col (uniq col)).
  - apply sum_list_with_pointwise. intros k. f_equal.
    unfold group_rows, select. apply List.filter_ext. intros x. unfold id.
    destruct (String.compare x k) eqn:Hc.
    + apply string_compare_eq in Hc. by rewrite bool_decide_eq_true_2.
    + rewrite bool_decide_eq_false_2; [done|]. intros He.
      apply string_compare_eq in He. congruence.
    + rewrite bool_decide_eq_false_2; [done|]. intros He.
      apply string_compare_eq in He. congruence.
  - apply uniq_NoDup.
  - intros r Hr. by apply elem_of_uniq.
Qed.

Lemma elem_of_platform_counts (df : Table) (k : string) (n : nat) :
  (k, n) ∈ platform_counts df <->
  k ∈ map Platform df /\
  n = length (select (fun r => bool_decide (Platform r = k)) df).
Proof.
  unfold platform_counts.
  rewrite (elem_of_Permutation_proper _ _ _
             (value_counts_Permutation (map Platform df))).
  rewrite list_elem_of_fmap. split.
  - intros (k' & [= -> ->] & Hk). rewrite elem_of_uniq in Hk.
    split; [done|]. apply count_in_column.
  - intros [Hk ->]. exists k. rewrite count_in_column.
    split; [done|]. by apply elem_of_uniq.
Qed.

(** X6.  The platform counts behind the market-share chart list every
    platform of the table once, with the number of its rows, the most
    frequent platform first; the counts add up to the number of rows. *)
Theorem platform_counts_correct (df : Table) :
  (forall k n, (k, n) ∈ platform_counts df <->
     k ∈ map Platform df /\
     n = length (select (fun r => bool_decide (Platform r = k)) df)) /\
  NoDup (map fst (platform_counts df)) /\
  StronglySorted (fun a b => (snd b <= snd a)%nat) (platform_counts df) /\
  sum_list_with snd (platform_counts df) = length df.
Proof.
  split; [apply elem_of_platform_counts|]. unfold platform_counts.
  split; [|split].
  - assert (map fst (value_counts (map Platform df))
            ≡ₚ uniq (map Platform df)) as ->; [|apply uniq_NoDup].
    rewrite (value_counts_Permutation (map Platform df)).
    rewrite map_map. simpl. by rewrite map_id.
  - unfold value_counts, sort_values_desc.
    eapply StronglySorted_impl; [|apply StronglySorted_rev,
      (stable_sort_sorted (fun a b : string * nat => Nat.leb (snd a) (snd b)))].
    + intros a b Hab. unfold flip in Hab. by apply Nat.leb_le.
    + intros x y. rewrite !Nat.leb_le. lia.
    + intros x y z. rewrite !Nat.leb_le. lia.
  - rewrite value_counts_sum. apply length_map.
Qed.

(** ** Aggregating a filtered table *)

Lemma filtered_prices_in_interval df city brands low high platforms ram_sizes
    storage_sizes r :
  r ∈ filter_data df city brands (low, high) platforms ram_sizes storage_sizes ->
  low <= price r /\ price r <= high.
Proof.
  rewrite filter_data_select, elem_of_select, satisfies_true.
  intros (_ & _ & _ & H & _). exact H.
Qed.

(** X8.  With a non-empty platform selection, every platform the
    dashboard reports for the filtered table is a selected one: in the
    platform statistics, in the platform counts and among the cheapest
    platforms; there are at most as many groups as selected platforms.  The
    memory and storage curves likewise only show selected sizes. *)
Theorem filtered_groups_within_selection df city brands price_range platforms
    ram_sizes storage_sizes :
  let out :=
    filter_data df city brands price_range platforms ram_sizes storage_sizes in
  (platforms <> [] ->
     (forall k, k ∈ map fst (platform_stats out) -> k ∈ platforms) /\
     (forall k, k ∈ map fst (platform_counts out) -> k ∈ platforms) /\
     (forall k, k ∈ map fst (get_cheapest_platforms out) -> k ∈ platforms) /\
     (length (platform_stats out) <= length platforms)%nat) /\
  (ram_sizes <> [] ->
     forall k, k ∈ map fst (ram_price out) -> k ∈ ram_sizes) /\
  (storage_sizes <> [] ->
     forall k, k ∈ map fst (storage_price out) -> k ∈ storage_sizes).
Proof.
  cbv zeta.
  set (out := filter_data df city brands price_range platforms ram_sizes
                storage_sizes).
  assert (Hrow : forall r, r ∈ out ->
            (platforms = [] \/ Platform r ∈ platforms) /\
            (ram_sizes = [] \/ RAM_Size (base r) ∈ ram_sizes) /\
            (storage_sizes = [] \/ Storage_Capacity (base r) ∈ storage_sizes)).
  { intros r. unfold out.
    rewrite filter_data_select, elem_of_select, satisfies_true. tauto. }
  split; [|split].
  - intros Hne.
    assert (Hcol : forall k, k ∈ map Platform out -> k ∈ platforms).
    { intros k (r & -> & Hr)%list_elem_of_fmap.
      destruct (Hrow r Hr) as ([? | ?] & _); done. }
    assert (Hstats : forall k, k ∈ map fst (platform_stats out) ->
              k ∈ platforms).
    { intros k. unfold platform_stats. rewrite groupby_keys.
      rewrite (elem_of_group_keys _ string_compare_eq). apply Hcol. }
    split; [exact Hstats|]. split; [|split].
    + intros k (e & -> & He)%list_elem_of_fmap. destruct e as [k n].
      unfold platform_counts in He.
      rewrite (elem_of_Permutation_proper _ _ _
                 (value_counts_Permutation (map Platform out))) in He.
      apply list_elem_of_fmap in He as (k' & [= -> _] & Hk).
      rewrite elem_of_uniq in Hk. by apply Hcol.
    + intros k (e & -> & He)%list_elem_of_fmap. destruct e as [k m].
      unfold get_cheapest_platforms in He.
      apply subseteq_take, elem_of_platform_avg_price,
        elem_of_platform_mean_price in He as [Hk _]. by apply Hcol.
    + rewrite <- (length_map fst). apply submseteq_length, NoDup_submseteq;
        [|exact Hstats].
      unfold platform_stats. rewrite groupby_keys. apply platform_keys_NoDup.
  - intros Hne k. unfold ram_price. rewrite groupby_keys.
    rewrite (elem_of_group_keys _ Z_compare_eq).
    intros (r & -> & Hr)%list_elem_of_fmap.
    destruct (Hrow r Hr) as (_ & [? | ?] & _); done.
  - intros Hne k. unfold storage_price. rewrite groupby_keys.
    rewrite (elem_of_group_keys _ Z_compare_eq).
    intros (r & -> & Hr)%list_elem_of_fmap.
    destruct (Hrow r Hr) as (_ & _ & [? | ?]); done.
Qed.

Lemma filtered_groups_within_selection_witness :
  Nat.le
    (length (platform_stats
               (filter_data scenario_table "All" [] (10000, 30000)
                  ["Croma"; "Flipkart"] [] [])))
    (length ["Croma"; "Flipkart"]).
Proof.
  destruct (filtered_groups_within_selection scenario_table "All" []
              (10000, 30000) ["Croma"; "Flipkart"] [] []) as [Hp _].
  destruct Hp as (_ & _ & _ & Hlen); [discriminate|]. exact Hlen.
Defined.

(** ** Extremes and truncation *)

Lemma Qmin_cases (x y : Q) :
  (Qmin x y = x /\ x <= y) \/ (Qmin x y = y /\ y <= x).
Proof.
  unfold Qmin, GenericMinMax.gmin.
  destruct (Qcompare_spec x y) as [H | H | H].
  - left. split; [done|]. rewrite H. apply Qle_refl.
  - left. split; [done|]. by apply Qlt_le_weak.
  - right. split; [done|]. by apply Qlt_le_weak.
Qed.

Lemma Qmax_cases (x y : Q) :
  (Qmax x y = x /\ y <= x) \/ (Qmax x y = y /\ x <= y).
Proof.
  unfold Qmax, GenericMinMax.gmax.
  destruct (Qcompare_spec x y) as [H | H | H].
  - left. split; [done|]. rewrite H. apply Qle_refl.
  - right. split; [done|]. by apply Qlt_le_weak.
  - left. split; [done|]. by apply Qlt_le_weak.
Qed.

Lemma fold_left_Qmin (xs : list Q) (a : Q) :
  let m := fold_left Qmin xs a in
  m ∈ a :: xs /\ forall y, y ∈ a :: xs -> m <= y.
Proof.
  revert a. induction xs as [|x xs IH]; intros a; simpl.
  - split; [constructor|]. intros y Hy.
    apply list_elem_of_singleton in Hy as ->. apply Qle_refl.
  - destruct (IH (Qmin a x)) as [Hin Hle]. split.
    + apply elem_of_cons in Hin as [-> | Hin].
      * destruct (Qmin_cases a x) as [[-> _] | [-> _]];
          [constructor | do 2 constructor].
      * by do 2 constructor.
    + intros y Hy.
      assert (fold_left Qmin xs (Qmin a x) <= Qmin a x) as Hm
        by (apply Hle; constructor).
      apply elem_of_cons in Hy as [-> | Hy];
        [|apply elem_of_cons in Hy as [-> | Hy]].
      * eapply Qle_trans; [exact Hm|].
        destruct (Qmin_cases a x) as [[-> _] | [-> H]]; [apply Qle_refl|done].
      * eapply Qle_trans; [exact Hm|].
        destruct (Qmin_cases a x) as [[-> H] | [-> _]]; [done|apply Qle_refl].
      * apply Hle. by constructor.
Qed.

Lemma fold_left_Qmax (xs : list Q) (a : Q) :
  let m := fold_left Qmax xs a in
  m ∈ a :: xs /\ forall y, y ∈ a :: xs -> y <= m.
Proof.
  revert a. induction xs as [|x xs IH]; intros a; simpl.
  - split; [constructor|]. intros y Hy.
    apply list_elem_of_singleton in Hy as ->. apply Qle_refl.
  - destruct (IH (Qmax a x)) as [Hin Hle]. split.
    + apply elem_of_cons in Hin as [-> | Hin].
      * destruct (Qmax_cases a x) as [[-> _] | [-> _]];
          [constructor | do 2 constructor].
      * by do 2 constructor.
    + intros y Hy.
      assert (Qmax a x <= fold_left Qmax xs (Qmax a x)) as Hm
        by (apply Hle; constructor).
      apply elem_of_cons in Hy as [-> | Hy];
        [|apply elem_of_cons in Hy as [-> | Hy]].
      * eapply Qle_trans; [|exact Hm].
        destruct (Qmax_cases a x) as [[-> _] | [-> H]]; [apply Qle_refl|done].
      * eapply Qle_trans; [|exact Hm].
        destruct (Qmax_cases a x) as [[-> H] | [-> _]]; [done|apply Qle_refl].
      * apply Hle. by constructor.
Qed.

(** The minimum of a non-empty column is one of its values and a lower
    bound of all of them; likewise the maximum. *)
Lemma series_min_spec (xs : list Q) :
  xs <> [] ->
  exists m, series_min xs = Some m /\ m ∈ xs /\ forall y, y ∈ xs -> m <= y.
Proof.
  destruct xs as [|x xs]; [done|]. intros _. eexists. split; [reflexivity|].
  apply fold_left_Qmin.
Qed.

Lemma series_max_spec (xs : list Q) :
  xs <> [] ->
  exists m, series_max xs = Some m /\ m ∈ xs /\ forall y, y ∈ xs -> y <= m.
Proof.
  destruct xs as [|x xs]; [done|]. intros _. eexists. split; [reflexivity|].
  apply fold_left_Qmax.
Qed.

(** On a non-negative number [int] rounds down. *)
Lemma py_int_floor (x : Q) : 0 <= x -> py_int x = Qfloor x.
Proof.
  destruct x as [n d]. unfold py_int, Qfloor, Qle. simpl. intros Hn.
  apply Z.quot_div_nonneg; lia.
Qed.


(** X7.  After a filter on the price interval [low, high], every price
    left in the table lies in that interval, and so do the lowest and the
    highest price of a result with rows (the two price metrics of the
    dashboard), the lowest at most the highest. *)
Theorem filtered_extremes_in_interval df city brands (low high : Q) platforms
    ram_sizes storage_sizes :
  let out :=
    filter_data df city brands (low, high) platforms ram_sizes storage_sizes in
  (forall r, r ∈ out -> low <= price r /\ price r <= high) /\
  (out <> [] ->
     exists lo hi,
       series_min (map price out) = Some lo /\
       series_max (map price out) = Some hi /\
       low <= lo /\ lo <= hi /\ hi <= high).
Proof.
  cbv zeta.
  set (out := filter_data df city brands (low, high) platforms ram_sizes
                storage_sizes).
  assert (Hall : forall r, r ∈ out -> low <= price r /\ price r <= high)
    by (intros r; apply filtered_prices_in_interval).
  split; [exact Hall|]. intros Hne.
  assert (map price out <> []) as Hne' by by intros H%map_eq_nil.
  destruct (series_min_spec _ Hne') as (lo & Hlo & Hlo_in & Hlo_le).
  destruct (series_max_spec _ Hne') as (hi & Hhi & Hhi_in & _).
  exists lo, hi. split; [done|]. split; [done|].
  split; [|split; [by apply Hlo_le|]].
  - apply list_elem_of_fmap in Hlo_in as (r & -> & Hr). by apply Hall.
  - apply list_elem_of_fmap in Hhi_in as (r & -> & Hr). by apply Hall.
Qed.

Lemma filtered_extremes_in_interval_witness :
  exists lo hi,
    series_min
      (map price (filter_data scenario_table "All" [] (12000, 27000) [] [] []))
    = Some lo /\
    series_max
      (map price (filter_data scenario_table "All" [] (12000, 27000) [] [] []))
    = Some hi /\
    12000 <= lo /\ lo <= hi /\ hi <= 27000.
Proof.
  destruct (filtered_extremes_in_interval scenario_table "All" [] 12000 27000
              [] [] []) as [_ Hext].
  apply Hext. discriminate.
Defined.

(** ** The sidebar *)

Lemma list_index_Some (x : string) (l : list string) (i : nat) (d : string) :
  list_index x l = Some i -> nth i l d = x.
Proof.
  revert i. induction l as [|y l IH]; intros i; simpl; [done|].
  destruct (decide (y = x)) as [-> | Hne].
  - rewrite bool_decide_eq_true_2 by done. by intros [= <-].
  - rewrite bool_decide_eq_false_2 by done.
    destruct (list_index x l) as [j|]; simpl; [|done].
    intros [= <-]. by apply IH.
Qed.

Lemma list_index_None (x : string) (l : list string) :
  list_index x l = None <-> x ∉ l.
Proof.
  induction l as [|y l IH]; simpl.
  - split; [intros _; apply not_elem_of_nil|done].
  - rewrite not_elem_of_cons. destruct (decide (y = x)) as [-> | Hne].
    + rewrite bool_decide_eq_true_2 by done. split; [done|tauto].
    + rewrite bool_decide_eq_false_2 by done.
      destruct (list_index x l) as [j|]; simpl.
      * split; [done|]. intros [_ H]. by apply IH in H.
      * split; [|done]. intros _. split; [congruence|]. by apply IH.
Qed.

Lemma select_ext_in {R} (f g : R -> bool) (l : list R) :
  (forall r, r ∈ l -> f r = g r) -> select f l = select g l.
Proof.
  unfold select. induction l as [|x l IH]; simpl; intros H; [done|].
  rewrite (H x) by constructor. rewrite IH; [done|].
  intros r Hr. apply H. by constructor.
Qed.

Lemma elem_of_sorted_uniq `{EqDecision A} (leb : A -> A -> bool)
    (col : list A) (x : A) :
  x ∈ stable_sort leb (uniq col) <-> x ∈ col.
Proof.
  rewrite (elem_of_Permutation_proper _ _ _ (stable_sort_Permutation leb _)).
  apply elem_of_uniq.
Qed.

Lemma default_city_value (col : list string) :
  let cities := "All" :: stable_sort String.leb (uniq col) in
  nth (match list_index "Bhopal" cities with Some i => i | None => 0%nat end)
    cities "All"
  = if bool_decide ("Bhopal" ∈ col) then "Bhopal" else "All".
Proof.
  intros cities.
  destruct (list_index "Bhopal" cities) as [i|] eqn:Hi.
  - rewrite (list_index_Some _ _ _ _ Hi). rewrite bool_decide_eq_true_2; [done|].
    assert ("Bhopal" ∈ cities) as Hin.
    { destruct (decide ("Bhopal" ∈ cities)) as [H | H]; [done|].
      apply list_index_None in H. congruence. }
    unfold cities in Hin. apply elem_of_cons in Hin as [? | Hin]; [done|].
    by apply elem_of_sorted_uniq in Hin.
  - rewrite bool_decide_eq_false_2; [done|].
    intros Hin. apply list_index_None in Hi. apply Hi. unfold cities.
    apply elem_of_cons. right. by apply elem_of_sorted_uniq.
Qed.

(** What the sidebar returns on a table with rows. *)
Lemma create_sidebar_filters_returns (df : Table) (s : FilterSpec) :
  create_sidebar_filters df = Returns s ->
  exists lo hi,
    df <> [] /\
    series_min (map price df) = Some lo /\
    series_max (map price df) = Some hi /\
    py_int lo <> py_int hi /\
    s = {| spec_city :=
             if bool_decide ("Bhopal" ∈ map City df) then "Bhopal" else "All";
           spec_brands := take 3 (uniq (map (fun r => Brand (base r)) df));
           spec_price := (inject_Z (py_int lo), inject_Z (py_int hi));
           spec_platforms := uniq (map Platform df);
           spec_ram :=
             stable_sort Z.leb (uniq (map (fun r => RAM_Size (base r)) df));
           spec_storage :=
             stable_sort Z.leb
               (uniq (map (fun r => Storage_Capacity (base r)) df)) |}.
Proof.
  unfold create_sidebar_filters, sidebar_widgets.
  destruct df as [|r df]; [done|].
  destruct (series_min_spec (map price (r :: df))) as (lo & Hlo & _); [done|].
  destruct (series_max_spec (map price (r :: df))) as (hi & Hhi & _); [done|].
  rewrite Hlo, Hhi. destruct (decide (py_int lo = py_int hi)) as [He | Hne].
  { by rewrite bool_decide_eq_true_2. }
  rewrite bool_decide_eq_false_2 by done. intros [= <-]. exists lo, hi.
  split; [done|]. split; [done|]. split; [done|]. split; [done|].
  unfold first_run. cbn [city_options city_index brand_default slider_min
    slider_max platform_options ram_options storage_options].
  f_equal.
  exact (default_city_value (map City (r :: df))).
Qed.

(** X9.  On the first run the city filter is set to Bhopal when some row
    of the table is in Bhopal, and to ["All"] (no city constraint)
    otherwise. *)
Theorem default_city (df : Table) (s : FilterSpec) :
  create_sidebar_filters df = Returns s ->
  spec_city s
  = if bool_decide ("Bhopal" ∈ map City df) then "Bhopal" else "All".
Proof.
  intros H. apply create_sidebar_filters_returns in H
    as (lo & hi & _ & _ & _ & _ & ->). done.
Qed.

Lemma default_city_witness :
  exists s, create_sidebar_filters scenario_table = Returns s /\
            spec_city s = "Bhopal".
Proof.
  eexists. split; [reflexivity|].
  exact (default_city scenario_table _ eq_refl).
Defined.

Lemma default_price_ok (df : Table) (lo hi : Q) (r : Listing) :
  series_min (map price df) = Some lo ->
  series_max (map price df) = Some hi ->
  (forall r, r ∈ df -> 0 <= price r) ->
  r ∈ df ->
  price_ok (inject_Z (py_int lo), inject_Z (py_int hi)) r
  = Qle_bool (price r) (inject_Z (Qfloor hi)).
Proof.
  intros Hlo Hhi Hpos Hr.
  assert (map price df <> []) as Hne.
  { intros Hnil. apply map_eq_nil in Hnil. subst df.
    by apply elem_of_nil in Hr. }
  destruct (series_min_spec _ Hne) as (lo' & Hlo' & Hlo_in & Hlo_le).
  destruct (series_max_spec _ Hne) as (hi' & Hhi' & Hhi_in & _).
  rewrite Hlo in Hlo'. rewrite Hhi in Hhi'.
  injection Hlo' as <-. injection Hhi' as <-.
  assert (forall x, x ∈ map price df -> 0 <= x) as Hpos'.
  { intros x (r' & -> & Hr')%list_elem_of_fmap. by apply Hpos. }
  rewrite (py_int_floor lo), (py_int_floor hi) by by apply Hpos'.
  unfold price_ok. cbn [fst snd].
  assert (Qle_bool (inject_Z (Qfloor lo)) (Price (base r)) = true) as ->; [|done].
  apply Qle_bool_iff. eapply Qle_trans; [apply Qfloor_le|].
  apply Hlo_le. apply list_elem_of_fmap. by exists r.
Qed.

(** X10.  On the first run the price slider spans from [int] of the lowest
    price to [int] of the highest price, the first below the second.  For
    non-negative prices both ends are the prices rounded down, the lower end
    excludes no row, and a row passes exactly when its price is at most the
    highest price rounded down: a row at the highest price is filtered out
    unless that price is a whole number. *)
Theorem default_price_interval (df : Table) (s : FilterSpec) :
  create_sidebar_filters df = Returns s ->
  (forall r, r ∈ df -> 0 <= price r) ->
  exists lo hi,
    series_min (map price df) = Some lo /\
    series_max (map price df) = Some hi /\
    spec_price s = (inject_Z (py_int lo), inject_Z (py_int hi)) /\
    py_int lo = Qfloor lo /\ py_int hi = Qfloor hi /\
    (py_int lo < py_int hi)%Z /\
    (forall r, r ∈ df -> fst (spec_price s) <= price r) /\
    (forall r, r ∈ df ->
       (price_ok (spec_price s) r = true <-> price r <= inject_Z (Qfloor hi))) /\
    (forall r, r ∈ df -> price r == hi -> inject_Z (Qfloor hi) < hi ->
       r ∉ apply_spec df s).
Proof.
  intros Hs Hpos. apply create_sidebar_filters_returns in Hs
    as (lo & hi & Hne & Hlo & Hhi & Hspan & ->).
  exists lo, hi. split; [done|]. split; [done|]. cbn [spec_price fst].
  split; [done|].
  assert (map price df <> []) as Hne' by by intros H%map_eq_nil.
  destruct (series_min_spec _ Hne') as (lo' & Hlo' & Hlo_in & Hlo_le).
  destruct (series_max_spec _ Hne') as (hi' & Hhi' & Hhi_in & _).
  rewrite Hlo in Hlo'. rewrite Hhi in Hhi'.
  injection Hlo' as <-. injection Hhi' as <-.
  assert (forall x, x ∈ map price df -> 0 <= x) as Hpos'.
  { intros x (r' & -> & Hr')%list_elem_of_fmap. by apply Hpos. }
  assert (py_int lo = Qfloor lo) as Hflo by by apply py_int_floor, Hpos'.
  assert (py_int hi = Qfloor hi) as Hfhi by by apply py_int_floor, Hpos'.
  split; [done|]. split; [done|].
  assert (Hok : forall r, r ∈ df ->
            (price_ok (inject_Z (py_int lo), inject_Z (py_int hi)) r = true
             <-> price r <= inject_Z (Qfloor hi))).
  { intros r Hr. rewrite (default_price_ok df lo hi r) by done.
    apply Qle_bool_iff. }
  split; [|split; [|split; [exact Hok|]]].
  - assert (Qfloor lo <= Qfloor hi)%Z by by apply Qfloor_resp_le, Hlo_le.
    lia.
  - intros r Hr. rewrite Hflo. eapply Qle_trans; [apply Qfloor_le|].
    apply Hlo_le. apply list_elem_of_fmap. by exists r.
  - intros r Hr Heq Hlt Hin. unfold apply_spec in Hin.
    rewrite filter_data_select, elem_of_select in Hin.
    destruct Hin as [_ Hsat].
    unfold satisfies in Hsat. rewrite !andb_true_iff in Hsat.
    destruct Hsat as [[[[_ Hp] _] _] _]. cbn [spec_price] in Hp.
    apply Hok in Hp; [|done]. apply (Qlt_irrefl hi).
    eapply Qle_lt_trans; [|exact Hlt]. eapply Qle_trans; [|exact Hp].
    apply Qle_lteq. right. symmetry. exact Heq.
Qed.

Lemma default_price_interval_witness :
  exists s,
    create_sidebar_filters fractional_table = Returns s /\
    spec_price s = (1000, 2000) /\
    listing "Y" (4001 # 2) "Croma" "Bhopal" ∉ apply_spec fractional_table s.
Proof.
  eexists. split; [reflexivity|].
  destruct (default_price_interval fractional_table _ eq_refl)
    as (lo & hi & Hlo & Hhi & Hspan & _ & _ & _ & _ & _ & Hdrop).
  - intros r Hr. repeat (apply elem_of_cons in Hr as [-> | Hr]);
      [by vm_compute .. | by apply elem_of_nil in Hr].
  - injection Hlo as <-. injection Hhi as <-. split; [exact Hspan|].
    apply Hdrop.
    + do 2 constructor.
    + reflexivity.
    + by vm_compute.
Defined.

Lemma member_ok_all `{EqDecision A} (xs : list A) (x : A) :
  x ∈ xs -> member_ok xs x = true.
Proof. intros H. apply member_ok_true. by right. Qed.

(** X11.  What the first run shows: the rows in Bhopal (all rows when no
    row is in Bhopal), of one of the first three brands of the table, priced
    at most the highest price rounded down.  The platform, memory and
    storage widgets start with every value selected and exclude nothing. *)
Theorem first_run_view (df : Table) (s : FilterSpec) :
  create_sidebar_filters df = Returns s ->
  (forall r, r ∈ df -> 0 <= price r) ->
  exists hi,
    series_max (map price df) = Some hi /\
    apply_spec df s
    = List.filter (fun r =>
        (bool_decide ("Bhopal" ∉ map City df) ||
         bool_decide (City r = "Bhopal")) &&
        bool_decide (Brand (base r)
                       ∈ take 3 (uniq (map (fun r => Brand (base r)) df))) &&
        Qle_bool (price r) (inject_Z (Qfloor hi))) df.
Proof.
  intros Hs Hpos. apply create_sidebar_filters_returns in Hs
    as (lo & hi & Hne & Hlo & Hhi & Hspan & ->).
  exists hi. split; [done|]. unfold apply_spec. rewrite filter_data_select.
  cbn [spec_city spec_brands spec_price spec_platforms spec_ram spec_storage].
  apply select_ext_in. intros r Hr. unfold satisfies.
  rewrite (default_price_ok df lo hi r) by done.
  rewrite (member_ok_all (uniq (map Platform df)))
    by (apply elem_of_uniq, list_elem_of_fmap; by exists r).
  rewrite (member_ok_all (stable_sort Z.leb _) (RAM_Size (base r)))
    by (apply elem_of_sorted_uniq, list_elem_of_fmap; by exists r).
  rewrite (member_ok_all (stable_sort Z.leb _) (Storage_Capacity (base r)))
    by (apply elem_of_sorted_uniq, list_elem_of_fmap; by exists r).
  rewrite !andb_true_r. f_equal. f_equal.
  - unfold city_ok.
    destruct (decide ("Bhopal" ∈ map City df)) as [Hin | Hnotin].
    + rewrite (bool_decide_eq_true_2 ("Bhopal" ∈ map City df)) by done.
      rewrite (bool_decide_eq_false_2 ("Bhopal" ∉ map City df)) by tauto.
      done.
    + rewrite (bool_decide_eq_false_2 ("Bhopal" ∈ map City df)) by done.
      by rewrite (bool_decide_eq_true_2 ("Bhopal" ∉ map City df)) by done.
  - unfold member_ok. destruct df as [|r0 df]; [done|]. cbn [map].
    destruct (uniq_head (Brand (base r0)) (map (fun r => Brand (base r)) df))
      as [rest ->]. done.
Qed.

Lemma first_run_view_witness :
  exists s,
    create_sidebar_filters scenario_table = Returns s /\
    map price (apply_spec scenario_table s) = [10000; 20000].
Proof.
  eexists. split; [reflexivity|].
  destruct (first_run_view scenario_table _ eq_refl) as (hi & Hhi & ->).
  - intros r Hr. repeat (apply elem_of_cons in Hr as [-> | Hr]);
      [by vm_compute .. | by apply elem_of_nil in Hr].
  - injection Hhi as <-. reflexivity.
Defined.

(** ** The derived columns *)



Section DerivedColumns.
Context {B rng : Type}.
Context (seed : Z -> rng).
Context (randint : nat -> rng -> nat * rng).
Context (random_sample : rng -> Q * rng).



(** The three derived columns, as drawn from the generator. *)
Lemma load_data_columns (df : list B) (w : world rng) :
  let platforms :=
    ["Amazon"; "Flipkart"; "Reliance Digital"; "Croma"; "Vijay Sales"] in
  let cities :=
    ["Bhopal"; "Mumbai"; "Delhi"; "Bangalore"; "Chennai"; "Kolkata"; "Pune";
     "Hyderabad"] in
  let draw1 := choice randint platforms (length df) (seed 42) in
  let draw2 := choice randint cities (length df) (snd draw1) in
  let draw3 := uniform random_sample 3 5 (length df) (snd draw2) in
  exists t,
    fst (load_data seed randint random_sample (Returns df) w)
    = Returns (Some t) /\
    map Platform t = fst draw1 /\
    map City t = fst draw2 /\
    map Rating t = map round1 (fst draw3).
Proof.
  cbv zeta. unfold load_data.
  pose proof (choice_length randint
    ["Amazon"; "Flipkart"; "Reliance Digital"; "Croma"; "Vijay Sales"]
    (length df) (seed 42)) as Hp.
  destruct (choice randint _ (length df) (seed 42)) as [platform_col g1].
  pose proof (choice_length randint
    ["Bhopal"; "Mumbai"; "Delhi"; "Bangalore"; "Chennai"; "Kolkata"; "Pune";
     "Hyderabad"] (length df) g1) as Hc.
  cbn [snd].
  destruct (choice randint _ (length df) g1) as [city_col g2].
  pose proof (uniform_length random_sample 3 5 (length df) g2) as Hu.
  cbn [snd].
  destruct (uniform random_sample 3 5 (length df) g2) as [u g3].
  simpl in Hp, Hc, Hu. eexists. split; [reflexivity|].
  destruct (assign_columns_columns df platform_col city_col (map round1 u))
    as (_ & H1 & H2 & H3); [done|done|by rewrite length_map|].
  done.
Qed.
End DerivedColumns.





(** X13.  The derived columns depend on the number of rows only: two base
    tables of the same length, whatever their columns and contents, get the
    same [Platform], [City] and [Rating] columns. *)
Theorem derived_columns_by_length {B1 B2 rng : Type} (seed : Z -> rng)
    (randint : nat -> rng -> nat * rng) (random_sample : rng -> Q * rng)
    (df1 : list B1) (df2 : list B2) (w1 w2 : world rng) :
  length df1 = length df2 ->
  exists t1 t2,
    fst (load_data seed randint random_sample (Returns df1) w1)
    = Returns (Some t1) /\
    fst (load_data seed randint random_sample (Returns df2) w2)
    = Returns (Some t2) /\
    map Platform t1 = map Platform t2 /\
    map City t1 = map City t2 /\
    map Rating t1 = map Rating t2.
Proof.
  intros Hlen.
  destruct (load_data_columns seed randint random_sample df1 w1)
    as (t1 & Hrun1 & Hp1 & Hc1 & Hx1).
  destruct (load_data_columns seed randint random_sample df2 w2)
    as (t2 & Hrun2 & Hp2 & Hc2 & Hx2).
  exists t1, t2. rewrite Hlen in Hp1, Hc1, Hx1.
  split; [done|]. split; [done|]. by rewrite Hp1, Hp2, Hc1, Hc2, Hx1, Hx2.
Qed.

Lemma derived_columns_by_length_witness :
  exists t1 t2,
    fst (load_data counter_seed counter_randint counter_random_sample
           (Returns ["r1"; "r2"]) {| np_random := 0%nat; st_errors := [] |})
    = Returns (Some t1) /\
    fst (load_data counter_seed counter_randint counter_random_sample
           (Returns [1%Z; 2%Z]) {| np_random := 5%nat; st_errors := [] |})
    = Returns (Some t2) /\
    map Platform t1 = map Platform t2.
Proof.
  destruct (derived_columns_by_length counter_seed counter_randint
              counter_random_sample ["r1"; "r2"] [1%Z; 2%Z]
              {| np_random := 0%nat; st_errors := [] |}
              {| np_random := 5%nat; st_errors := [] |} eq_refl)
    as (t1 & t2 & H1 & H2 & Hp & _).
  by exists t1, t2.
Defined.

(** ** The page *)

Lemma uniq_length `{EqDecision A} (col : list A) :
  (length (uniq col) <= length col)%nat /\ (col <> [] -> uniq col <> []).
Proof.
  split.
  - apply submseteq_length, NoDup_submseteq; [apply uniq_NoDup|].
    intros x. by rewrite elem_of_uniq.
  - destruct col as [|x col]; [done|]. intros _.
    by destruct (uniq_head x col) as [rest ->].
Qed.

Section MainFacts.
Context (np_sort : (Listing -> Q) -> Table -> Table).

(** What [main] has computed when it shows the dashboard. *)
Lemma main_dashboard (df : Table) (choose : sidebar -> FilterSpec)
    (sort_by : sort_column) (ascending : bool) (d : dashboard) :
  main np_sort (Some df) choose sort_by ascending = Returns (Dashboard d) ->
  exists sb,
    sidebar_widgets df = Returns sb /\
    apply_spec df (choose sb) <> [] /\
    let out := apply_spec df (choose sb) in
    total_laptops d = length out /\
    average_price d = series_mean (map price out) /\
    lowest_price d = series_min (map price out) /\
    highest_price d = series_max (map price out) /\
    brands_available d = length (uniq (map (fun r => Brand (base r)) out)) /\
    best_deals d = match get_cheapest_platforms out with
                   | first :: second :: _ => Some (first, second)
                   | _ => None
                   end /\
    platform_chart d = platform_stats out /\
    market_share d = platform_counts out /\
    detailed_data d = take 20 (df_sort_values np_sort sort_by ascending out).
Proof.
  unfold main. destruct (sidebar_widgets df) as [sb | e]; [|done].
  destruct (apply_spec df (choose sb)) as [|r out] eqn:Hout; [done|].
  cbn [df_empty]. intros [= <-]. exists sb. rewrite Hout.
  split; [done|]. split; [done|]. cbv zeta. repeat split.
Qed.



(** X15.  The metrics of the dashboard are consistent: at least one
    laptop is counted, the lowest and the highest price are prices of rows
    of the table with the lowest at most the highest, the number of brands
    is between one and the number of laptops, and the counts of the
    platform chart and of the market-share chart add up to the number of
    laptops. *)
Theorem dashboard_metrics (df : Table) (choose : sidebar -> FilterSpec)
    (sort_by : sort_column) (ascending : bool) (d : dashboard) :
  main np_sort (Some df) choose sort_by ascending = Returns (Dashboard d) ->
  (1 <= total_laptops d)%nat /\
  (exists lo hi,
     lowest_price d = Some lo /\ highest_price d = Some hi /\ lo <= hi /\
     (exists r, r ∈ df /\ price r = lo) /\ (exists r, r ∈ df /\ price r = hi)) /\
  (1 <= brands_available d <= total_laptops d)%nat /\
  sum_list_with (fun e => snd (snd e)) (platform_chart d) = total_laptops d /\
  sum_list_with snd (market_share d) = total_laptops d.
Proof.
  intros Hmain. apply main_dashboard in Hmain as (sb & _ & Hne & Hd).
  cbv zeta in Hd.
  destruct Hd as (-> & _ & -> & -> & -> & _ & -> & -> & _).
  assert (Hsub : forall r, r ∈ apply_spec df (choose sb) -> r ∈ df).
  { intros r. unfold apply_spec. rewrite filter_data_select, elem_of_select.
    tauto. }
  set (out := apply_spec df (choose sb)) in *.
  assert (map price out <> []) as Hne' by by intros H%map_eq_nil.
  split; [|split; [|split; [|split]]].
  - destruct out; [done|]. simpl. lia.
  - destruct (series_min_spec _ Hne') as (lo & Hlo & Hlo_in & Hlo_le).
    destruct (series_max_spec _ Hne') as (hi & Hhi & Hhi_in & _).
    exists lo, hi. split; [done|]. split; [done|].
    split; [by apply Hlo_le|].
    apply list_elem_of_fmap in Hlo_in as (r & -> & Hr).
    apply list_elem_of_fmap in Hhi_in as (r' & -> & Hr').
    split; [exists r | exists r']; split; auto.
  - destruct (uniq_length (map (fun r => Brand (base r)) out)) as [Hle Hpos].
    rewrite length_map in Hle. split; [|done].
    assert (uniq (map (fun r => Brand (base r)) out) <> []) as Hu
      by (apply Hpos; by intros H%map_eq_nil).
    destruct (uniq _); [done|]. simpl. lia.
  - apply platform_stats_count_sum.
  - unfold platform_counts. rewrite value_counts_sum. apply length_map.
Qed.
End MainFacts.


Lemma dashboard_metrics_witness :
  exists d,
    main insertion_np_sort (Some scenario_table) first_run SortPrice true
    = Returns (Dashboard d) /\
    (1 <= total_laptops d)%nat /\
    sum_list_with snd (market_share d) = total_laptops d.
Proof.
  eexists. split; [reflexivity|].
  destruct (dashboard_metrics insertion_np_sort scenario_table first_run
              SortPrice true _ eq_refl) as (Htotal & _ & _ & _ & Hshare).
  split; [exact Htotal|exact Hshare].
Defined.

(** ** Best deals and the table *)

Lemma cheaper_distinct (df : Table) (a b : string * Q) :
  a ∈ platform_mean_price df -> b ∈ platform_mean_price df ->
  cheaper a b -> fst a <> fst b.
Proof.
  destruct a as [ka ma], b as [kb mb]. simpl.
  intros [_ ->]%elem_of_platform_mean_price [_ ->]%elem_of_platform_mean_price.
  intros [Hlt | [_ Hk]] Heq; simpl in *.
  - rewrite Heq in Hlt. by apply Qlt_irrefl in Hlt.
  - rewrite Heq in Hk. apply string_ltb_compare in Hk.
    rewrite (proj2 (string_compare_eq kb kb) eq_refl) in Hk. discriminate.
Qed.

(** X16.  The best-deals block is shown exactly when the filtered table
    has at least two platforms.  The two platforms shown are distinct, each
    with its own mean price, the first no dearer than the second, and every
    other platform of the filtered table is at least as dear as the
    second. *)
Theorem best_deals_shown (np_sort : (Listing -> Q) -> Table -> Table)
    (df : Table) (choose : sidebar -> FilterSpec) (sort_by : sort_column)
    (ascending : bool) (d : dashboard) :
  main np_sort (Some df) choose sort_by ascending = Returns (Dashboard d) ->
  exists sb,
    sidebar_widgets df = Returns sb /\
    let out := apply_spec df (choose sb) in
    (is_Some (best_deals d)
     <-> (2 <= length (remove_dups (map Platform out)))%nat) /\
    (forall first second,
       best_deals d = Some (first, second) ->
       fst first <> fst second /\
       snd first = platform_mean out (fst first) /\
       snd second = platform_mean out (fst second) /\
       snd first <= snd second /\
       (forall k, k ∈ map Platform out -> k <> fst first ->
          snd second <= platform_mean out k)).
Proof.
  intros Hmain. apply main_dashboard in Hmain as (sb & Hsb & _ & Hd).
  cbv zeta in Hd. destruct Hd as (_ & _ & _ & _ & _ & Hbest & _).
  exists sb. split; [done|]. cbv zeta.
  set (out := apply_spec df (choose sb)) in *.
  unfold get_cheapest_platforms in Hbest.
  pose proof (platform_avg_price_sorted out) as Hsorted.
  pose proof (platform_avg_price_length out) as Hlen.
  assert (Hin : forall a, a ∈ platform_avg_price out ->
            a ∈ platform_mean_price out)
    by (intros a; apply elem_of_platform_avg_price).
  destruct (platform_avg_price out) as [|a [|b rest]] eqn:Hpap;
    simpl in Hbest, Hlen.
  - rewrite Hbest, <- Hlen. split; [|done].
    split; [by intros [? [=]] | lia].
  - rewrite Hbest, <- Hlen. split; [|done].
    split; [by intros [? [=]] | lia].
  - rewrite Hbest, <- Hlen. split; [split; [lia | by eexists]|].
    intros first second [= <- <-].
    apply StronglySorted_cons in Hsorted as [Ha Hsorted].
    apply StronglySorted_cons in Hsorted as [Hb _].
    apply Forall_cons in Ha as [Hab _].
    assert (a ∈ platform_mean_price out) as Ha_in by (apply Hin; constructor).
    assert (b ∈ platform_mean_price out) as Hb_in
      by (apply Hin; do 2 constructor).
    split; [by eapply cheaper_distinct|].
    destruct a as [ka ma], b as [kb mb].
    pose proof Ha_in as [_ ->]%elem_of_platform_mean_price.
    pose proof Hb_in as [_ ->]%elem_of_platform_mean_price.
    split; [done|]. split; [done|]. split; [by apply cheaper_le in Hab|].
    intros k Hk Hne. simpl in *.
    assert ((k, platform_mean out k) ∈ platform_mean_price out) as Hk_in
      by by apply elem_of_platform_mean_price.
    apply elem_of_platform_avg_price in Hk_in. rewrite Hpap in Hk_in.
    apply elem_of_cons in Hk_in as [[= ? _] | Hk_in]; [done|].
    apply elem_of_cons in Hk_in as [[= -> ] | Hk_in]; [apply Qle_refl|].
    eapply Forall_forall in Hb; [|exact Hk_in]. by apply cheaper_le in Hb.
Qed.

Lemma best_deals_shown_witness :
  exists d,
    main insertion_np_sort (Some scenario_table) first_run SortPrice true
    = Returns (Dashboard d) /\
    is_Some (best_deals d).
Proof.
  eexists. split; [reflexivity|].
  destruct (best_deals_shown insertion_np_sort scenario_table first_run
              SortPrice true _ eq_refl) as (sb & Hsb & Hshown & _).
  by eexists.
Defined.

Lemma Qle_bool_total (x y : Q) : Qle_bool x y = true \/ Qle_bool y x = true.
Proof.
  rewrite !Qle_bool_iff. destruct (Qlt_le_dec x y) as [H | H];
    [left; by apply Qlt_le_weak | by right].
Qed.

Lemma insertion_np_sort_Permutation (key : Listing -> Q) (df : Table) :
  insertion_np_sort key df ≡ₚ df.
Proof. apply stable_sort_Permutation. Qed.

Lemma insertion_np_sort_sorted (key : Listing -> Q) (df : Table) :
  StronglySorted (fun a b => key a <= key b) (insertion_np_sort key df).
Proof.
  eapply StronglySorted_impl;
    [|apply (stable_sort_sorted (fun a b => Qle_bool (key a) (key b)))].
  - intros a b Hab. by apply Qle_bool_iff.
  - intros x y. apply Qle_bool_total.
  - intros x y z. rewrite !Qle_bool_iff. apply Qle_trans.
Qed.

(** X17.  For any sort that returns an ordered permutation of the rows,
    the table under the dashboard shows the first twenty rows of the
    filtered table in the chosen order: the rows shown together with the
    rows left out are the filtered rows, at most twenty are shown, and the
    rows shown followed by the rows left out ascend (or descend) by the
    chosen column. *)
Theorem detailed_data_top_twenty (np_sort : (Listing -> Q) -> Table -> Table)
    (df : Table) (choose : sidebar -> FilterSpec) (sort_by : sort_column)
    (ascending : bool) (d : dashboard) :
  (forall key l, np_sort key l ≡ₚ l) ->
  (forall key l, StronglySorted (fun a b => key a <= key b) (np_sort key l)) ->
  main np_sort (Some df) choose sort_by ascending = Returns (Dashboard d) ->
  exists sb rest,
    sidebar_widgets df = Returns sb /\
    detailed_data d ++ rest ≡ₚ apply_spec df (choose sb) /\
    length (detailed_data d) = Nat.min 20 (total_laptops d) /\
    StronglySorted
      (fun a b => if ascending then sort_key sort_by a <= sort_key sort_by b
                  else sort_key sort_by b <= sort_key sort_by a)
      (detailed_data d ++ rest).
Proof.
  intros Hperm Hsorted Hmain.
  apply main_dashboard in Hmain as (sb & Hsb & _ & Hd). cbv zeta in Hd.
  destruct Hd as (-> & _ & _ & _ & _ & _ & _ & _ & ->).
  set (out := apply_spec df (choose sb)).
  exists sb, (drop 20 (df_sort_values np_sort sort_by ascending out)).
  split; [done|]. rewrite take_drop.
  assert (df_sort_values np_sort sort_by ascending out ≡ₚ out) as Hp.
  { unfold df_sort_values. destruct ascending; [apply Hperm|].
    by rewrite <- Permutation_rev, Hperm, <- Permutation_rev. }
  split; [exact Hp|]. split.
  - by rewrite length_take, (Permutation_length Hp).
  - unfold df_sort_values. destruct ascending; [apply Hsorted|].
    apply (StronglySorted_rev _ _ (Hsorted (sort_key sort_by) (rev out))).
Qed.

Lemma detailed_data_top_twenty_witness :
  exists d,
    main insertion_np_sort (Some scenario_table) first_run SortPrice false
    = Returns (Dashboard d) /\
    length (detailed_data d) = Nat.min 20 (total_laptops d).
Proof.
  eexists. split; [reflexivity|].
  destruct (detailed_data_top_twenty insertion_np_sort scenario_table first_run
              SortPrice false _ insertion_np_sort_Permutation
              insertion_np_sort_sorted eq_refl)
    as (sb & rest & _ & _ & Hlen & _).
  exact Hlen.
Defined.

(** ** The charts agree *)

Lemma elem_of_platform_stats (df : Table) (k : string) (m : Q) (n : nat) :
  (k, (m, n)) ∈ platform_stats df <->
  k ∈ map Platform df /\ m = platform_mean df k /\
  n = length (select (fun r => bool_decide (Platform r = k)) df).
Proof.
  unfold platform_stats, platform_mean.
  rewrite (elem_of_groupby String.compare string_compare_eq).
  rewrite group_rows_platform. split.
  - intros [Hk [= -> ->]]. done.
  - intros (Hk & -> & ->). done.
Qed.

(** X18.  The figures of the dashboard agree with each other: a platform
    has the same count in the market-share chart as in the platform chart,
    and each of the cheapest platforms is listed in the platform chart with
    the same mean price. *)
Theorem charts_agree (df : Table) :
  (forall k n,
     (k, n) ∈ platform_counts df <-> exists m, (k, (m, n)) ∈ platform_stats df) /\
  (forall k m,
     (k, m) ∈ get_cheapest_platforms df ->
     exists n, (k, (m, n)) ∈ platform_stats df /\ (k, n) ∈ platform_counts df).
Proof.
  split.
  - intros k n. rewrite elem_of_platform_counts. split.
    + intros [Hk ->]. exists (platform_mean df k).
      by apply elem_of_platform_stats.
    + intros [m (Hk & _ & ->)%elem_of_platform_stats]. done.
  - intros k m Hin. unfold get_cheapest_platforms in Hin.
    apply subseteq_take, elem_of_platform_avg_price,
      elem_of_platform_mean_price in Hin as [Hk ->].
    eexists. split.
    + by apply elem_of_platform_stats.
    + by apply elem_of_platform_counts.
Qed.

Lemma charts_agree_witness :
  exists n, ("Croma", (45000 # 2, n)) ∈ platform_stats scenario_table /\
            ("Croma", n) ∈ platform_counts scenario_table.
Proof.
  destruct (charts_agree scenario_table) as [_ Hcheap].
  apply Hcheap. vm_compute. do 2 constructor.
Defined.

(** ** The options of the widgets *)

Lemma string_leb_trans (x y z : string) :
  String.leb x y = true -> String.leb y z = true -> String.leb x z = true.
Proof.
  unfold String.leb.
  destruct (String.compare x y) eqn:Hxy; [| |done];
    destruct (String.compare y z) eqn:Hyz; try done; intros _ _.
  - apply string_compare_eq in Hxy as ->. by rewrite Hyz.
  - apply string_compare_eq in Hxy as ->. by rewrite Hyz.
  - apply string_compare_eq in Hyz as <-. by rewrite Hxy.
  - by rewrite (string_compare_lt_trans x y z).
Qed.

Lemma StronglySorted_strict {A} (R : relation A) (l : list A) :
  StronglySorted R l -> NoDup l ->
  StronglySorted (fun a b => R a b /\ a <> b) l.
Proof.
  induction 1 as [|x l Hs IH Hall]; intros Hnd; [constructor|].
  apply NoDup_cons in Hnd as [Hx Hnd]. constructor; [by apply IH|].
  apply Forall_forall. intros y Hy. split.
  - by eapply Forall_forall in Hall.
  - by intros ->.
Qed.

Lemma sorted_uniq_Z (col : list Z) :
  StronglySorted Z.lt (stable_sort Z.leb (uniq col)).
Proof.
  eapply StronglySorted_impl;
    [|apply StronglySorted_strict;
       [apply (stable_sort_sorted Z.leb)|]].
  - intros a b [Hle Hne]. apply Z.leb_le in Hle. lia.
  - intros x y. rewrite !Z.leb_le. lia.
  - intros x y z. rewrite !Z.leb_le. lia.
  - rewrite stable_sort_Permutation. apply uniq_NoDup.
Qed.

Lemma sorted_uniq_string (col : list string) :
  StronglySorted (fun a b => String.ltb a b = true)
    (stable_sort String.leb (uniq col)).
Proof.
  eapply StronglySorted_impl;
    [|apply StronglySorted_strict;
       [apply (stable_sort_sorted String.leb)|]].
  - intros a b [Hle Hne]. unfold String.leb in Hle. unfold String.ltb.
    destruct (String.compare a b) eqn:Hc; [|done|done].
    by apply string_compare_eq in Hc.
  - apply String.leb_total.
  - apply string_leb_trans.
  - rewrite stable_sort_Permutation. apply uniq_NoDup.
Qed.

(** X19.  The options of the sidebar list every value of their column
    once: the cities after ["All"] in ascending order, the memory and
    storage sizes in ascending order, the brands and platforms in order of
    first appearance; the brands selected at the start are the first three
    options. *)
Theorem sidebar_options (df : Table) (sb : sidebar) :
  sidebar_widgets df = Returns sb ->
  (exists cs, city_options sb = "All" :: cs /\
     StronglySorted (fun a b => String.ltb a b = true) cs /\
     forall c, c ∈ cs <-> c ∈ map City df) /\
  (NoDup (brand_options sb) /\
   (forall b, b ∈ brand_options sb <-> b ∈ map (fun r => Brand (base r)) df) /\
   brand_default sb = take 3 (brand_options sb)) /\
  (NoDup (platform_options sb) /\
   forall k, k ∈ platform_options sb <-> k ∈ map Platform df) /\
  (StronglySorted Z.lt (ram_options sb) /\
   forall k, k ∈ ram_options sb <-> k ∈ map (fun r => RAM_Size (base r)) df) /\
  (StronglySorted Z.lt (storage_options sb) /\
   forall k, k ∈ storage_options sb
             <-> k ∈ map (fun r => Storage_Capacity (base r)) df).
Proof.
  unfold sidebar_widgets.
  destruct (series_min (map price df)) as [lo|]; [|done].
  destruct (series_max (map price df)) as [hi|]; [|done].
  destruct (bool_decide (py_int lo = py_int hi)); [done|].
  intros [= <-]. cbn [city_options brand_options brand_default
    platform_options ram_options storage_options].
  split; [|split; [|split; [|split]]].
  - eexists. split; [reflexivity|]. split; [apply sorted_uniq_string|].
    intros c. apply elem_of_sorted_uniq.
  - split; [apply uniq_NoDup|]. split; [|done]. intros b. apply elem_of_uniq.
  - split; [apply uniq_NoDup|]. intros k. apply elem_of_uniq.
  - split; [apply sorted_uniq_Z|]. intros k. apply elem_of_sorted_uniq.
  - split; [apply sorted_uniq_Z|]. intros k. apply elem_of_sorted_uniq.
Qed.

Lemma sidebar_options_witness :
  exists sb,
    sidebar_widgets scenario_table = Returns sb /\
    city_options sb = ["All"; "Bhopal"; "Delhi"; "Pune"] /\
    StronglySorted Z.lt (ram_options sb).
Proof.
  eexists. split; [reflexivity|].
  destruct (sidebar_options scenario_table _ eq_refl)
    as (_ & _ & _ & [Hram _] & _).
  split; [reflexivity|exact Hram].
Defined.

(** ** The cheapest platforms, for pandas' mean and numpy's sort *)

Lemma sort_values_sorts_by_value : sorts_by_value sort_values.
Proof.
  split.
  - intros s. apply stable_sort_Permutation.
  - intros s. unfold sort_values.
    eapply StronglySorted_impl;
      [|apply (stable_sort_sorted
                 (fun a b : string * Q => Qle_bool (snd a) (snd b)))].
    + intros a b Hab. by apply Qle_bool_iff.
    + intros x y. apply Qle_bool_total.
    + intros x y z. rewrite !Qle_bool_iff. apply Qle_trans.
Qed.

Lemma get_cheapest_platforms_instance (df : Table) :
  get_cheapest_platforms df
  = get_cheapest_platforms_np series_mean sort_values df.
Proof. reflexivity. Qed.

Section CheapestFacts.
Context (np_mean : list Q -> Q).
Context (np_sort : list (string * Q) -> list (string * Q)).
Hypothesis np_sort_sorts : sorts_by_value np_sort.

Lemma elem_of_platform_mean_price_np (df : Table) (k : string) (m : Q) :
  (k, m) ∈ platform_mean_price_np np_mean df
  <-> k ∈ map Platform df /\
      m = np_mean (map price
                     (select (fun r => bool_decide (Platform r = k)) df)).
Proof.
  unfold platform_mean_price_np.
  rewrite (elem_of_groupby String.compare string_compare_eq).
  by rewrite group_rows_platform.
Qed.

Lemma platform_mean_price_np_keys (df : Table) :
  map fst (platform_mean_price_np np_mean df)
  = group_keys String.compare (map Platform df).
Proof. apply groupby_keys. Qed.

Lemma np_sort_take_drop (df : Table) :
  get_cheapest_platforms_np np_mean np_sort df
    ++ drop 2 (np_sort (platform_mean_price_np np_mean df))
  = np_sort (platform_mean_price_np np_mean df).
Proof. apply take_drop. Qed.

(** Three groups with the mean prices 1000, 800 and 1200: every sort by
    value puts them in the one ascending order. *)
Lemma np_sort_three_means (s : list (string * Q)) :
  series_eq s [("A", 1000); ("B", 800); ("C", 1200)] ->
  series_eq (take 2 (np_sort s)) [("B", 800); ("A", 1000)].
Proof.
  destruct np_sort_sorts as [Hperm Hsorted].
  intros Hs. unfold series_eq in Hs.
  apply Forall2_cons_inv_r in Hs as (a & s1 & [Hka Hma] & Hs & ->).
  apply Forall2_cons_inv_r in Hs as (b & s2 & [Hkb Hmb] & Hs & ->).
  apply Forall2_cons_inv_r in Hs as (c & s3 & [Hkc Hmc] & Hs & ->).
  apply Forall2_nil_inv_r in Hs as ->. simpl in Hma, Hmb, Hmc.
  assert (Hab : ~ snd a <= snd b).
  { rewrite (Qle_comp _ _ Hma _ _ Hmb). by vm_compute. }
  assert (Hca : ~ snd c <= snd a).
  { rewrite (Qle_comp _ _ Hmc _ _ Hma). by vm_compute. }
  assert (Hcb : ~ snd c <= snd b).
  { rewrite (Qle_comp _ _ Hmc _ _ Hmb). by vm_compute. }
  assert (Hba : snd b <= snd a).
  { rewrite (Qle_comp _ _ Hmb _ _ Hma). by vm_compute. }
  assert (Hac : snd a <= snd c).
  { rewrite (Qle_comp _ _ Hma _ _ Hmc). by vm_compute. }
  assert (Hbc : snd b <= snd c).
  { rewrite (Qle_comp _ _ Hmb _ _ Hmc). by vm_compute. }
  assert (np_sort [a; b; c] = [b; a; c]) as ->.
  { apply (StronglySorted_unique_strong (fun x y => snd x <= snd y)).
    - intros x y Hx Hy Hxy Hyx.
      rewrite (elem_of_Permutation_proper _ _ _ (Hperm [a; b; c])) in Hx.
      repeat (apply elem_of_cons in Hx as [-> | Hx]);
        [| | | by apply elem_of_nil in Hx];
        repeat (apply elem_of_cons in Hy as [-> | Hy]);
        try done; by apply elem_of_nil in Hy.
    - apply Hsorted.
    - repeat constructor; done.
    - rewrite Hperm. apply perm_swap. }
  simpl. repeat constructor; done.
Qed.
End CheapestFacts.

(** C3, as the specification states it, fails on ties, whatever the mean
    and the sort of the libraries are.  Flipkart and Amazon have the same
    prices, hence the same mean; Flipkart appears first in [tie_table] and
    Amazon first in the reversed table, so the claim asks for Flipkart first
    on the one and Amazon first on the other.  The group-by emits the groups
    in ascending key order, the sort sees the same series for both tables
    and returns the same result: on one of the two the claim fails. *)
Lemma cheapest_ties_ignore_first_appearance :
  unique (map Platform tie_table) = ["Flipkart"; "Amazon"] /\
  unique (map Platform (rev tie_table)) = ["Amazon"; "Flipkart"] /\
  ~ exists (np_mean : list Q -> Q)
           (np_sort : list (string * Q) -> list (string * Q)),
      map fst (get_cheapest_platforms_np np_mean np_sort tie_table)
      = ["Flipkart"; "Amazon"] /\
      map fst (get_cheapest_platforms_np np_mean np_sort (rev tie_table))
      = ["Amazon"; "Flipkart"].
Proof.
  split; [reflexivity|]. split; [reflexivity|].
  intros (np_mean & np_sort & H1 & H2).
  assert (get_cheapest_platforms_np np_mean np_sort (rev tie_table)
          = get_cheapest_platforms_np np_mean np_sort tie_table) as Heq
    by reflexivity.
  rewrite Heq, H1 in H2. discriminate.
Qed.

(** C3 (amended).  For the mean pandas computes and any sort by value,
    [get_cheapest_platforms] returns (platform, mean price) pairs, as many
    as there are distinct platforms but at most two, each platform at most
    once, in ascending order of mean price; every platform left out has a
    mean price at least that of each one returned.  The order among
    platforms of equal mean price is the one the sort yields; it does not
    follow the order of first appearance.  For a table whose platforms A, B,
    C have mean prices 1000, 800, 1200 the result is [(B, 800), (A, 1000)]. *)
Theorem get_cheapest_platforms_np_correct (np_mean : list Q -> Q)
    (np_sort : list (string * Q) -> list (string * Q)) :
  sorts_by_value np_sort ->
  (forall df,
     let out := get_cheapest_platforms_np np_mean np_sort df in
     let mean_of k :=
       np_mean (map price (select (fun r => bool_decide (Platform r = k)) df)) in
     length out = Nat.min 2 (length (remove_dups (map Platform df))) /\
     StronglySorted (fun a b => snd a <= snd b) out /\
     NoDup (map fst out) /\
     (forall k m, (k, m) ∈ out -> k ∈ map Platform df /\ m = mean_of k) /\
     (forall k, k ∈ map Platform df -> k ∉ map fst out ->
        forall a, a ∈ out -> snd a <= mean_of k)) /\
  (forall df,
     series_eq (platform_mean_price_np np_mean df)
       [("A", 1000); ("B", 800); ("C", 1200)] ->
     series_eq (get_cheapest_platforms_np np_mean np_sort df)
       [("B", 800); ("A", 1000)]).
Proof.
  intros Hsort. pose proof Hsort as [Hperm Hsorted]. split.
  - intros df. cbv zeta.
    pose proof (Hsorted (platform_mean_price_np np_mean df)) as HS.
    rewrite <- (np_sort_take_drop np_mean np_sort df) in HS.
    set (G := platform_mean_price_np np_mean df) in *.
    assert (Hin : forall a, a ∈ get_cheapest_platforms_np np_mean np_sort df ->
              a ∈ G).
    { intros a Ha. apply (elem_of_Permutation_proper _ _ _ (Hperm G)).
      exact (subseteq_take 2 (np_sort G) a Ha). }
    split; [|split; [|split; [|split]]].
    + unfold get_cheapest_platforms_np. cbv zeta.
      rewrite length_take, (Permutation_length (Hperm _)).
      unfold platform_mean_price_np.
      by rewrite (groupby_length String.compare string_compare_eq
                    String.compare_antisym string_compare_lt_trans).
    + by apply StronglySorted_app_1_l in HS.
    + assert (NoDup (fst <$> np_sort G)) as Hnd.
      { rewrite (Hperm G). unfold G.
        change (NoDup (map fst (platform_mean_price_np np_mean df))).
        rewrite platform_mean_price_np_keys. apply platform_keys_NoDup. }
      change (NoDup (fst <$> take 2 (np_sort G))). rewrite fmap_take.
      eapply sublist_NoDup; [exact Hnd|apply sublist_take].
    + intros k m Hk. by apply elem_of_platform_mean_price_np, Hin.
    + intros k Hk Hout a Ha.
      eapply (StronglySorted_app_1_elem_of (fun a b => snd a <= snd b) _ _ a
                (k, _)); [exact HS|exact Ha|].
      assert ((k, np_mean (map price
                 (select (fun r => bool_decide (Platform r = k)) df)))
              ∈ np_sort G) as Hk'.
      { rewrite (elem_of_Permutation_proper _ _ _ (Hperm G)).
        by apply elem_of_platform_mean_price_np. }
      unfold G in Hk'.
      rewrite <- (np_sort_take_drop np_mean np_sort df) in Hk'.
      apply elem_of_app in Hk' as [Hk' | Hk']; [|exact Hk'].
      exfalso. apply Hout. apply list_elem_of_fmap. by eexists (k, _).
  - intros df Hs. by apply np_sort_three_means.
Qed.

Lemma get_cheapest_platforms_np_correct_witness :
  length (get_cheapest_platforms_np series_mean sort_values abc_table) = 2%nat /\
  series_eq (get_cheapest_platforms_np series_mean sort_values abc_table)
    [("B", 800); ("A", 1000)].
Proof.
  destruct (get_cheapest_platforms_np_correct series_mean sort_values
              sort_values_sorts_by_value) as [Hgen Hex].
  destruct (Hgen abc_table) as (Hlen & _).
  split; [exact Hlen|]. apply Hex. vm_compute. repeat constructor.
Defined.

(** C10, as stated, fails: an exception that does not derive from
    [Exception] passes through [except Exception] to the caller, and the
    world is left as it was. *)
Lemma load_data_propagates_KeyboardInterrupt :
  load_data counter_seed counter_randint counter_random_sample
    (Raises KeyboardInterrupt : outcome (list Laptop))
    {| np_random := 0%nat; st_errors := [] |}
  = (Raises KeyboardInterrupt, {| np_random := 0%nat; st_errors := [] |}).
Proof. reflexivity. Qed.
